(** * Chunk extraction of [lua_embedder.py]

    A shallow embedding of the Lua chunker of the DCS Lua analyzer
    ([extract_node_text], [get_node_line_range], [get_node_metadata] and
    [chunk_lua_file] with its closure [process_node]) together with the
    properties its specification states about it.

    The syntax tree comes from tree-sitter and the bytes from the file
    system: both are inputs here.  The two builtins the chunker relies on,
    [bytes.decode('utf-8', errors=...)] and [str.strip()], are embedded
    after CPython, the first with its two error handlers.

    After the chunker come its users: [generate_embedding] and
    [store_chunks], with the embedding services and the database as
    parameters, the choice of files in [main], and the batching of
    [batch_process.py], which runs the embedder file by file. *)

From Stdlib Require Import ZArith Lia Bool.
From Stdlib Require Import Strings.Byte.
From Stdlib Require Import Sorting.Sorted.
From stdpp Require Import gmap strings list fin_maps.

Local Open Scope Z_scope.

Set Warnings "-register-all".

(** ** Results of operations that may raise [UnicodeDecodeError] *)

Inductive result (A : Type) : Type :=
  | Ok (a : A)
  | UnicodeDecodeError.

Arguments Ok {A} a.
Arguments UnicodeDecodeError {A}.

Definition bind {A B : Type} (m : result A) (k : A -> result B) : result B :=
  match m with
  | Ok a => k a
  | UnicodeDecodeError => UnicodeDecodeError
  end.

Notation "'do' x <- m ; k" := (bind m (fun x => k))
  (at level 10, x name, m at level 100, k at level 200).

(** ** Python values *)

(** A Python [str] obtained by decoding is a sequence of code points. *)
Abbreviation str := (list Z) (only parsing).

(** A Python [bytes] object. *)
Abbreviation bytes := (list byte) (only parsing).

Definition byte_val (b : byte) : Z := Z.of_N (Byte.to_N b).

(** *** [bytes.decode('utf-8', errors=...)] *)

Inductive error_handler : Type := strict | replace.

Definition is_continuation_byte (ch : Z) : bool :=
  (0x80 <=? ch) && (ch <? 0xC0).

(** What the decoder does with the code points [rest] decoded after an
    error range: [strict] raises, [replace] puts U+FFFD for the range. *)
Definition decode_error (errors : error_handler) (rest : result str)
  : result str :=
  match errors with
  | strict => UnicodeDecodeError
  | replace => do s <- rest ; Ok (0xFFFD :: s)
  end.

Definition emit (ch : Z) (rest : result str) : result str :=
  do s <- rest ; Ok (ch :: s).

Fixpoint utf8_decode (errors : error_handler) (s : bytes) : result str :=
  match s with
  | [] => Ok []
  | c1 :: s1 =>
    let ch := byte_val c1 in
    if ch <? 0x80 then emit ch (utf8_decode errors s1)
    else if ch <? 0xC2 then
      (* invalid start byte *)
      decode_error errors (utf8_decode errors s1)
    else if ch <? 0xE0 then
      match s1 with
      | [] => decode_error errors (Ok [])  (* unexpected end of data *)
      | c2 :: s2 =>
        let ch2 := byte_val c2 in
        if negb (is_continuation_byte ch2)
        then decode_error errors (utf8_decode errors s1)
        else emit (Z.shiftl ch 6 + ch2 - (Z.shiftl 0xC0 6 + 0x80))
                  (utf8_decode errors s2)
      end
    else if ch <? 0xF0 then
      match s1 with
      | [] => decode_error errors (Ok [])
      | c2 :: s2 =>
        let ch2 := byte_val c2 in
        if negb (is_continuation_byte ch2)
           || (if ch2 <? 0xA0 then ch =? 0xE0 else ch =? 0xED)
        then decode_error errors (utf8_decode errors s1)
        else
          match s2 with
          | [] => decode_error errors (Ok [])
          | c3 :: s3 =>
            let ch3 := byte_val c3 in
            if negb (is_continuation_byte ch3)
            then decode_error errors (utf8_decode errors s2)
            else emit (Z.shiftl ch 12 + Z.shiftl ch2 6 + ch3
                       - (Z.shiftl 0xE0 12 + Z.shiftl 0x80 6 + 0x80))
                      (utf8_decode errors s3)
          end
      end
    else if ch <? 0xF5 then
      match s1 with
      | [] => decode_error errors (Ok [])
      | c2 :: s2 =>
        let ch2 := byte_val c2 in
        if negb (is_continuation_byte ch2)
           || (if ch2 <? 0x90 then ch =? 0xF0 else ch =? 0xF4)
        then decode_error errors (utf8_decode errors s1)
        else
          match s2 with
          | [] => decode_error errors (Ok [])
          | c3 :: s3 =>
            let ch3 := byte_val c3 in
            if negb (is_continuation_byte ch3)
            then decode_error errors (utf8_decode errors s2)
            else
              match s3 with
              | [] => decode_error errors (Ok [])
              | c4 :: s4 =>
                let ch4 := byte_val c4 in
                if negb (is_continuation_byte ch4)
                then decode_error errors (utf8_decode errors s3)
                else emit (Z.shiftl ch 18 + Z.shiftl ch2 12
                           + Z.shiftl ch3 6 + ch4
                           - (Z.shiftl 0xF0 18 + Z.shiftl 0x80 12
                              + Z.shiftl 0x80 6 + 0x80))
                          (utf8_decode errors s4)
              end
          end
      end
    else decode_error errors (utf8_decode errors s1)
  end.

(** *** [str.strip()] and [len] *)

(** [str.isspace] on one code point. *)
Definition isspace (ch : Z) : bool :=
  (0x09 <=? ch) && (ch <=? 0x0D) || (0x1C <=? ch) && (ch <=? 0x20)
  || (ch =? 0x85) || (ch =? 0xA0) || (ch =? 0x1680)
  || (0x2000 <=? ch) && (ch <=? 0x200A)
  || (ch =? 0x2028) || (ch =? 0x2029) || (ch =? 0x202F)
  || (ch =? 0x205F) || (ch =? 0x3000).

Fixpoint lstrip (s : str) : str :=
  match s with
  | [] => []
  | ch :: s' => if isspace ch then lstrip s' else s
  end.

Definition rstrip (s : str) : str := rev (lstrip (rev s)).

Definition strip (s : str) : str := rstrip (lstrip s).

Definition len {A : Type} (l : list A) : Z := Z.of_nat (length l).

(** [b[i:j]] for offsets that are not negative. *)
Definition slice (b : bytes) (i j : nat) : bytes := take (j - i) (drop i b).

(** ** The syntax tree (tree-sitter's [Node], read only) *)

Inductive node : Type := Node {
  type : string;
  start_byte : nat;
  end_byte : nat;
  start_point : nat * nat;   (* (row, column), rows from 0 *)
  end_point : nat * nat;
  children : list node
}.

(** ** Chunks *)

(** The values the [metadata] dict holds: [node.type] (a tag of the
    grammar), a decoded name, or the list of decoded names. *)
Inductive meta_value : Type :=
  | MTag (s : string)
  | MStr (s : str)
  | MList (l : list str).

Record chunk : Type := Chunk {
  id : Z;
  file_path : string;
  chunk_type : string;
  content : str;
  metadata : gmap string meta_value;
  line_start : Z;
  line_end : Z;
  parent_id : option Z
}.

(** ** The functions of [lua_embedder.py] *)

Definition extract_node_text (n : node) (source_bytes : bytes) : result str :=
  utf8_decode strict (slice source_bytes (start_byte n) (end_byte n)).

Definition get_node_line_range (n : node) : Z * Z :=
  (Z.of_nat (fst (start_point n)) + 1, Z.of_nat (fst (end_point n)) + 1).

(** [for child in node.children: if child.type == "name": ...; break] *)
Fixpoint first_name (source_bytes : bytes) (l : list node)
    (metadata : gmap string meta_value) : result (gmap string meta_value) :=
  match l with
  | [] => Ok metadata
  | child :: l' =>
    if String.eqb (type child) "name"
    then do text <- extract_node_text child source_bytes ;
         Ok (<["name" := MStr text]> metadata)
    else first_name source_bytes l' metadata
  end.

(** [for name_node in child.children: if name_node.type == "identifier": ...] *)
Fixpoint identifier_names (source_bytes : bytes) (l : list node)
    (names : list str) : result (list str) :=
  match l with
  | [] => Ok names
  | name_node :: l' =>
    if String.eqb (type name_node) "identifier"
    then do text <- extract_node_text name_node source_bytes ;
         identifier_names source_bytes l' (names ++ [text])
    else identifier_names source_bytes l' names
  end.

(** [for child in node.children: if child.type == "variable_list": ...] *)
Fixpoint variable_list_names (source_bytes : bytes) (l : list node)
    (names : list str) : result (list str) :=
  match l with
  | [] => Ok names
  | child :: l' =>
    if String.eqb (type child) "variable_list"
    then do names' <- identifier_names source_bytes (children child) names ;
         variable_list_names source_bytes l' names'
    else variable_list_names source_bytes l' names
  end.

Definition get_node_metadata (n : node) (source_bytes : bytes)
  : result (gmap string meta_value) :=
  let metadata : gmap string meta_value := {[ "node_type" := MTag (type n) ]} in
  if String.eqb (type n) "function_definition"
  then first_name source_bytes (children n) metadata
  else if String.eqb (type n) "variable_declaration"
  then do names <- variable_list_names source_bytes (children n) [] ;
       match names with
       | [] => Ok metadata
       | _ :: _ => Ok (<["names" := MList names]> metadata)
       end
  else Ok metadata.

Definition interesting_node_types : list string :=
  [ "function_definition"; "table_constructor"; "variable_declaration";
    "assignment_statement"; "comment"; "if_statement"; "for_statement";
    "while_statement"; "repeat_statement"; "do_statement"; "local_function" ]%string.

(** [node.type in interesting_node_types] *)
Definition is_interesting (n : node) : bool :=
  existsb (String.eqb (type n)) interesting_node_types.

(** The closure [process_node]: it appends to the list [chunks] of the
    enclosing call, passed and returned here, and returns the new chunk's
    id or [None]. *)
Definition process_node (path : string) (source_bytes : bytes)
    (n : node) (parent : option Z) (chunks : list chunk)
  : result (list chunk * option Z) :=
  if is_interesting n then
    do text <- extract_node_text n source_bytes ;
    let '(l_start, l_end) := get_node_line_range n in
    if len (strip text) <? 5 then Ok (chunks, None)
    else
      let chunk_id := len chunks + 1 in
      do md <- get_node_metadata n source_bytes ;
      Ok (chunks ++ [ {| id := chunk_id;
                         file_path := path;
                         chunk_type := type n;
                         content := text;
                         metadata := md;
                         line_start := l_start;
                         line_end := l_end;
                         parent_id := parent |} ],
          Some chunk_id)
  else Ok (chunks, None).

(** [for child in root_node.children: process_node(child)] *)
Fixpoint process_children (path : string) (source_bytes : bytes)
    (l : list node) (chunks : list chunk) : result (list chunk) :=
  match l with
  | [] => Ok chunks
  | child :: l' =>
    do r <- process_node path source_bytes child None chunks ;
    process_children path source_bytes l' (fst r)
  end.

(** The fallback chunk of a file whose leniently decoded text is [text]. *)
Definition file_chunk (path : string) (text : str) (root_node : node) : chunk :=
  {| id := 1;
     file_path := path;
     chunk_type := "file";
     content := text;
     metadata := {[ "node_type" := MTag "file" ]};
     line_start := 1;
     line_end := Z.of_nat (fst (end_point root_node)) + 1;
     parent_id := None |}.

(** [chunk_lua_file], from the bytes read from [path] and the root of the
    tree the parser made of them. *)
Definition chunk_lua_file (path : string) (source_bytes : bytes)
    (root_node : node) : result (list chunk) :=
  do chunks <- process_children path source_bytes (children root_node) [] ;
  match chunks with
  | [] =>
    do text <- utf8_decode replace source_bytes ;
    Ok [file_chunk path text root_node]
  | _ :: _ => Ok chunks
  end.

(** ** Vocabulary of the specification *)

(** A top-level child qualifies when its type is on the allow-list and its
    text, stripped, has at least 5 characters. *)
Definition qualifies (source_bytes : bytes) (n : node) : bool :=
  is_interesting n &&
  match extract_node_text n source_bytes with
  | Ok text => 5 <=? len (strip text)
  | UnicodeDecodeError => false
  end.

(** The strict decoding of the span of an allow-listed node succeeds. *)
Definition decodable (source_bytes : bytes) (n : node) : Prop :=
  is_interesting n = true ->
  exists text, extract_node_text n source_bytes = Ok text.

(** [c] is the chunk [process_node] makes of the node [n] (its [id] apart). *)
Record derived (path : string) (source_bytes : bytes) (c : chunk) (n : node)
  : Prop := {
  derived_interesting : is_interesting n = true;
  derived_content : extract_node_text n source_bytes = Ok (content c);
  derived_size : 5 <= len (strip (content c));
  derived_metadata : get_node_metadata n source_bytes = Ok (metadata c);
  derived_path : file_path c = path;
  derived_type : chunk_type c = type n;
  derived_line_start : line_start c = Z.of_nat (fst (start_point n)) + 1;
  derived_line_end : line_end c = Z.of_nat (fst (end_point n)) + 1
}.

(** The result C1 describes: exactly one chunk, the fallback. *)
Definition fallback_result (source_bytes : bytes) (root_node : node)
    (r : result (list chunk)) : Prop :=
  exists c, r = Ok [c]
    /\ chunk_type c = "file"%string
    /\ id c = 1
    /\ parent_id c = None
    /\ metadata c = {[ "node_type"%string := MTag "file" ]}
    /\ line_start c = 1
    /\ line_end c = Z.of_nat (fst (end_point root_node)) + 1.

(** ** Inputs used in examples *)

Module Examples.



(** A comment that holds a byte that is not UTF-8: [--] and 0xFF. *)
Definition latin1_bytes : list byte := [x2d; x2d; xff].

Definition latin1_root : node :=
  Node "chunk" 0 3 (0%nat, 0%nat) (0%nat, 3%nat)
    [ Node "comment" 0 3 (0%nat, 0%nat) (0%nat, 3%nat) [] ].

(** The three-character comment [--x]: too small to be a chunk. *)
Definition small_bytes : list byte := String.list_byte_of_string "--x".

Definition small_comment : node :=
  Node "comment" 0 3 (0%nat, 0%nat) (0%nat, 3%nat) [].

Definition small_root : node :=
  Node "chunk" 0 3 (0%nat, 0%nat) (0%nat, 3%nat) [small_comment].

(** Two functions on lines 1 to 3 and 5 to 5, with a blank line 4:
    [function a()\n return 1\nend\n\nfunction b() end\n]. *)
Definition two_bytes : list byte :=
  String.list_byte_of_string "function a()" ++ [x0a]
  ++ String.list_byte_of_string " return 1" ++ [x0a]
  ++ String.list_byte_of_string "end" ++ [x0a; x0a]
  ++ String.list_byte_of_string "function b() end" ++ [x0a].

Definition two_root : node :=
  Node "chunk" 0 45 (0%nat, 0%nat) (5%nat, 0%nat)
    [ Node "function_definition" 0 26 (0%nat, 0%nat) (2%nat, 3%nat)
        [ Node "name" 9 10 (0%nat, 9%nat) (0%nat, 10%nat) [] ];
      Node "function_definition" 28 44 (4%nat, 0%nat) (4%nat, 16%nat)
        [ Node "name" 37 38 (4%nat, 9%nat) (4%nat, 10%nat) [] ] ].

(** The chunks expected of it; the text is ASCII, a code point a byte. *)
Definition two_chunks : list chunk :=
  [ {| id := 1; file_path := "two.lua";
       chunk_type := "function_definition";
       content := byte_val <$> slice two_bytes 0 26;
       metadata := <["name" := MStr [0x61]]>
                     {[ "node_type" := MTag "function_definition" ]};
       line_start := 1; line_end := 3; parent_id := None |};
    {| id := 2; file_path := "two.lua";
       chunk_type := "function_definition";
       content := byte_val <$> slice two_bytes 28 44;
       metadata := <["name" := MStr [0x62]]>
                     {[ "node_type" := MTag "function_definition" ]};
       line_start := 5; line_end := 5; parent_id := None |} ].

(** A file with nothing on the allow-list and bytes that are not UTF-8. *)
Definition binary_bytes : list byte := [xff; xfe; x41].

Definition binary_root : node :=
  Node "chunk" 0 3 (0%nat, 0%nat) (0%nat, 3%nat)
    [ Node "ERROR" 0 3 (0%nat, 0%nat) (0%nat, 3%nat) [] ].

End Examples.

(** ** Vocabulary for the metadata *)

(** The [identifier] children of the [variable_list] children of a node,
    in document order. *)
Definition declared_identifiers (n : node) : list node :=
  List.filter (fun x => String.eqb (type x) "identifier")
    (concat (children <$>
             List.filter (fun c => String.eqb (type c) "variable_list")
               (children n))).

(** The texts of a list of nodes, decoded from left to right. *)
Fixpoint decode_all (source_bytes : bytes) (l : list node)
  : result (list str) :=
  match l with
  | [] => Ok []
  | x :: l' =>
    do text <- extract_node_text x source_bytes ;
    do texts <- decode_all source_bytes l' ;
    Ok (text :: texts)
  end.

(** ** Storing the chunks ([generate_embedding], [store_chunks]) *)

(** A row of [lua_chunks] as [store_chunks] inserts it; the [id] column is
    not among the values, the database numbers the rows. *)
Record row (embedding : Type) : Type := Row {
  row_file_path : string;
  row_chunk_type : string;
  row_content : str;
  row_meta_data : gmap string meta_value;
  row_embedding : embedding;
  row_line_start : Z;
  row_line_end : Z;
  row_parent_id : option Z
}.

Arguments Row {embedding}.
Arguments row_file_path {embedding}.
Arguments row_chunk_type {embedding}.
Arguments row_content {embedding}.
Arguments row_meta_data {embedding}.
Arguments row_embedding {embedding}.
Arguments row_line_start {embedding}.
Arguments row_line_end {embedding}.
Arguments row_parent_id {embedding}.

(** How [store_chunks] ends: normally, or with the exception of an
    [INSERT] that the database refused. *)
Inductive store_outcome : Type := Completed | Raised.

Section Store.

Context {embedding : Type}.

(** The two services: the answer of Ollama's [/api/embeddings] and of
    [openai.Embedding.create] for a text, [None] when the call raises. *)
Variable ollama_embeddings : str -> option embedding.
Variable openai_embedding_create : str -> option embedding.

(** The globals [USE_OLLAMA] and [openai.api_key]. *)
Variable USE_OLLAMA : bool.
Variable api_key : string.

(** Whether [conn.execute] accepts a row, given the table as it is. *)
Variable execute : list (row embedding) -> row embedding -> bool.

Definition generate_embedding (text : str) : option embedding :=
  if USE_OLLAMA then ollama_embeddings text
  else if String.eqb api_key "" then None   (* raise ValueError *)
  else openai_embedding_create text.

Definition row_of (c : chunk) (e : embedding) : row embedding :=
  {| row_file_path := file_path c;
     row_chunk_type := chunk_type c;
     row_content := content c;
     row_meta_data := metadata c;
     row_embedding := e;
     row_line_start := line_start c;
     row_line_end := line_end c;
     row_parent_id := parent_id c |}.

(** [store_chunks], from the table as it is to the table as committed. *)
Fixpoint store_chunks (chunks : list chunk) (table : list (row embedding))
  : list (row embedding) * store_outcome :=
  match chunks with
  | [] => (table, Completed)
  | c :: chunks' =>
    match generate_embedding (content c) with
    | None => store_chunks chunks' table            (* logged; continue *)
    | Some e =>
      if execute table (row_of c e)
      then store_chunks chunks' (table ++ [row_of c e])
      else (table, Raised)
    end
  end.

(** The rows [store_chunks] has to insert: one for each chunk whose
    embedding is generated. *)
Definition rows_to_store (chunks : list chunk) : list (row embedding) :=
  omap (fun c => row_of c <$> generate_embedding (content c)) chunks.

End Store.

(** ** The files [main] processes *)

(** [l[:n]] *)
Definition slice_to {A : Type} (l : list A) (n : Z) : list A :=
  if 0 <=? n then take (Z.to_nat n) l
  else take (length l - Z.to_nat (- n)) l.

(** The files [main] of [lua_embedder.py] hands to [chunk_lua_file], in
    order, once the database and the parser are set up: [isdir] and
    [isfile] are [os.path.isdir(args.dir)] and [os.path.isfile],
    [lua_files] what [glob] finds under the directory, [single_file] and
    [limit] the optional arguments. *)
Definition main_files (isdir : bool) (isfile : string -> bool)
    (lua_files : list string) (single_file : option string)
    (limit : option Z) : list string :=
  if negb isdir then []
  else
    match single_file with
    | Some f =>
      if negb (String.eqb f "") then (if isfile f then [f] else [])
      else match limit with
           | Some n => if negb (n =? 0) then slice_to lua_files n
                       else lua_files
           | None => lua_files
           end
    | None =>
      match limit with
      | Some n => if negb (n =? 0) then slice_to lua_files n else lua_files
      | None => lua_files
      end
    end.

(** ** Batches ([batch_process.py]) *)

(** [pattern in file_path] on strings. *)
Fixpoint contains (pattern s : string) : bool :=
  String.prefix pattern s
  || match s with
     | EmptyString => false
     | String _ s' => contains pattern s'
     end.

(** [get_all_lua_files], from what [glob] finds. *)
Definition get_all_lua_files (lua_files : list string)
    (exclude_patterns : option (list string)) : list string :=
  match exclude_patterns with
  | Some ((_ :: _) as patterns) =>
    List.filter
      (fun file_path =>
         negb (existsb (fun pattern => contains pattern file_path) patterns))
      lua_files
  | _ => lua_files
  end.

(** [range(0, stop, step)] for [stop] not negative and [step] not zero. *)
Definition range0 (stop step : Z) : list Z :=
  if 0 <? step
  then (fun k => Z.of_nat k * step) <$> seq 0 (Z.to_nat ((stop + step - 1) / step))
  else [].

(** [l[i:j]] for [i] and [j] not negative. *)
Definition list_slice {A : Type} (l : list A) (i j : Z) : list A :=
  take (Z.to_nat j - Z.to_nat i) (drop (Z.to_nat i) l).

Inductive batch_result : Type :=
  | Batches (l : list (list string))
  | ZeroDivisionError.

(** [process_batch]: the batches, each the files handed one by one to
    [lua_embedder.py --single-file]. *)
Definition process_batch (files : list string) (batch_size : Z)
  : batch_result :=
  if batch_size =? 0 then ZeroDivisionError   (* len(files)//batch_size *)
  else Batches ((fun i => list_slice files i (i + batch_size))
                <$> range0 (len files) batch_size).

(** [list.index]: the first position of [x], [None] for [ValueError]. *)
Fixpoint index (l : list string) (x : string) : option nat :=
  match l with
  | [] => None
  | y :: l' => if String.eqb y x then Some 0%nat else S <$> index l' x
  end.

(** The [--continue-from] step of [main]. *)
Definition continue_from (all_files : list string) (arg : option string)
  : list string :=
  match arg with
  | Some f =>
    if negb (String.eqb f "")
    then match index all_files f with
         | Some start_index => drop start_index all_files
         | None => all_files
         end
    else all_files
  | None => all_files
  end.

(** [main] of [batch_process.py], from what [glob] finds. *)
Definition batch_main (lua_files : list string)
    (exclude : option (list string)) (continue_arg : option string)
    (batch_size : Z) : batch_result :=
  process_batch
    (continue_from (get_all_lua_files lua_files exclude) continue_arg)
    batch_size.

(** ** The decoder *)

(** Splits on every test and every list the decoder looks at. *)
Ltac decoder_cases :=
  repeat match goal with
  | |- context [match ?x with _ => _ end] => destruct x
  end.

Lemma utf8_decode_cons errors c1 s1 :
  utf8_decode errors (c1 :: s1) =
    let ch := byte_val c1 in
    if ch <? 0x80 then emit ch (utf8_decode errors s1)
    else if ch <? 0xC2 then decode_error errors (utf8_decode errors s1)
    else if ch <? 0xE0 then
      match s1 with
      | [] => decode_error errors (Ok [])
      | c2 :: s2 =>
        let ch2 := byte_val c2 in
        if negb (is_continuation_byte ch2)
        then decode_error errors (utf8_decode errors s1)
        else emit (Z.shiftl ch 6 + ch2 - (Z.shiftl 0xC0 6 + 0x80))
                  (utf8_decode errors s2)
      end
    else if ch <? 0xF0 then
      match s1 with
      | [] => decode_error errors (Ok [])
      | c2 :: s2 =>
        let ch2 := byte_val c2 in
        if negb (is_continuation_byte ch2)
           || (if ch2 <? 0xA0 then ch =? 0xE0 else ch =? 0xED)
        then decode_error errors (utf8_decode errors s1)
        else
          match s2 with
          | [] => decode_error errors (Ok [])
          | c3 :: s3 =>
            let ch3 := byte_val c3 in
            if negb (is_continuation_byte ch3)
            then decode_error errors (utf8_decode errors s2)
            else emit (Z.shiftl ch 12 + Z.shiftl ch2 6 + ch3
                       - (Z.shiftl 0xE0 12 + Z.shiftl 0x80 6 + 0x80))
                      (utf8_decode errors s3)
          end
      end
    else if ch <? 0xF5 then
      match s1 with
      | [] => decode_error errors (Ok [])
      | c2 :: s2 =>
        let ch2 := byte_val c2 in
        if negb (is_continuation_byte ch2)
           || (if ch2 <? 0x90 then ch =? 0xF0 else ch =? 0xF4)
        then decode_error errors (utf8_decode errors s1)
        else
          match s2 with
          | [] => decode_error errors (Ok [])
          | c3 :: s3 =>
            let ch3 := byte_val c3 in
            if negb (is_continuation_byte ch3)
            then decode_error errors (utf8_decode errors s2)
            else
              match s3 with
              | [] => decode_error errors (Ok [])
              | c4 :: s4 =>
                let ch4 := byte_val c4 in
                if negb (is_continuation_byte ch4)
                then decode_error errors (utf8_decode errors s3)
                else emit (Z.shiftl ch 18 + Z.shiftl ch2 12
                           + Z.shiftl ch3 6 + ch4
                           - (Z.shiftl 0xF0 18 + Z.shiftl 0x80 12
                              + Z.shiftl 0x80 6 + 0x80))
                          (utf8_decode errors s4)
              end
          end
      end
    else decode_error errors (utf8_decode errors s1).
Proof. destruct s1 as [|? [|? [|? ?]]]; reflexivity. Qed.

Lemma emit_returns ch (r : result (list Z)) :
  (exists t, r = Ok t) -> exists t, emit ch r = Ok t.
Proof. intros [t ->]. eexists. reflexivity. Qed.

Lemma decode_error_replace_returns (r : result (list Z)) :
  (exists t, r = Ok t) -> exists t, decode_error replace r = Ok t.
Proof. intros [t ->]. eexists. reflexivity. Qed.

Lemma emit_inv ch (r : result (list Z)) t :
  emit ch r = Ok t -> exists t', r = Ok t' /\ t = ch :: t'.
Proof.
  destruct r as [t'|]; cbn; [|discriminate].
  intros [= <-]. eauto.
Qed.

(** With the [replace] handler decoding never raises. *)
Lemma utf8_decode_replace_returns (s : list byte) :
  exists t, utf8_decode replace s = Ok t.
Proof.
  induction s as [s IH] using (induction_ltof1 _ (@length byte)).
  unfold ltof in IH.
  destruct s as [|c1 s1]; [eexists; reflexivity|].
  rewrite utf8_decode_cons. cbv zeta.
  decoder_cases;
    (apply emit_returns || apply decode_error_replace_returns);
    solve [ eexists; reflexivity | apply IH; cbn [length]; lia ].
Qed.

(** Where strict decoding succeeds, the lenient one gives the same text. *)
Lemma utf8_decode_strict_replace (s : list byte) t :
  utf8_decode strict s = Ok t -> utf8_decode replace s = Ok t.
Proof.
  revert t.
  induction s as [s IH] using (induction_ltof1 _ (@length byte)).
  unfold ltof in IH. intros t.
  destruct s as [|c1 s1]; [trivial|].
  rewrite !utf8_decode_cons. cbv zeta.
  decoder_cases; try discriminate;
    intros (t' & Ht' & ->)%emit_inv;
    (apply IH in Ht'; [rewrite Ht'; reflexivity | cbn [length]; lia]).
Qed.

(** ** One node *)

Lemma is_interesting_not_file (n : node) :
  is_interesting n = true -> type n <> "file"%string.
Proof.
  intros Hi Heq. unfold is_interesting in Hi. rewrite Heq in Hi.
  discriminate Hi.
Qed.

(** What [process_node] returns when it returns: the list unchanged for a
    node that does not qualify, one chunk more for one that does. *)
Lemma process_node_spec path bs n parent chunks r :
  process_node path bs n parent chunks = Ok r ->
  (qualifies bs n = false /\ r = (chunks, None)) \/
  (qualifies bs n = true /\
   exists c, r = (chunks ++ [c], Some (id c))
     /\ derived path bs c n
     /\ id c = len chunks + 1
     /\ parent_id c = parent).
Proof.
  unfold process_node, qualifies.
  destruct (is_interesting n) eqn:Hi; cbn [andb].
  2: { intros [= <-]. left. split; reflexivity. }
  destruct (extract_node_text n bs) as [text|] eqn:Ht; cbn [bind];
    [|discriminate].
  unfold get_node_line_range.
  destruct (len (strip text) <? 5) eqn:Hlen.
  - intros [= <-]. left. split; [|reflexivity].
    apply Z.leb_gt, Z.ltb_lt, Hlen.
  - destruct (get_node_metadata n bs) as [md|] eqn:Hmd; cbn [bind];
      [|discriminate].
    intros [= <-]. right. apply Z.ltb_ge in Hlen.
    split; [apply Z.leb_le, Hlen|].
    eexists (Chunk _ _ _ _ _ _ _ _). split; [reflexivity|].
    split; [|split; reflexivity].
    constructor; cbn; auto.
Qed.

(** A node off the allow-list is passed over. *)
Lemma process_node_uninteresting path bs n parent chunks :
  is_interesting n = false ->
  process_node path bs n parent chunks = Ok (chunks, None).
Proof. unfold process_node. intros ->. reflexivity. Qed.

(** An allow-listed node whose text is short is passed over. *)
Lemma process_node_small path bs n parent chunks text :
  is_interesting n = true ->
  extract_node_text n bs = Ok text ->
  len (strip text) < 5 ->
  process_node path bs n parent chunks = Ok (chunks, None).
Proof.
  unfold process_node. intros -> -> Hlen. cbn [bind].
  unfold get_node_line_range.
  apply Z.ltb_lt in Hlen. rewrite Hlen. reflexivity.
Qed.

(** An allow-listed node whose span does not decode raises. *)
Lemma process_node_raises path bs n parent chunks :
  is_interesting n = true ->
  extract_node_text n bs = UnicodeDecodeError ->
  process_node path bs n parent chunks = UnicodeDecodeError.
Proof. unfold process_node. intros -> ->. reflexivity. Qed.

Lemma not_qualifies_decodable bs n :
  decodable bs n -> qualifies bs n = false ->
  is_interesting n = false \/
  is_interesting n = true /\
  exists text, extract_node_text n bs = Ok text /\ len (strip text) < 5.
Proof.
  unfold decodable, qualifies. intros Hd Hq.
  destruct (is_interesting n); [right|left; reflexivity].
  destruct Hd as [text Ht]; [reflexivity|].
  rewrite Ht in Hq. cbn in Hq. apply Z.leb_gt in Hq. eauto.
Qed.

(** ** The loop over the children of the root *)

Lemma process_children_spec path bs l : forall chunks out,
  process_children path bs l chunks = Ok out ->
  exists new, out = chunks ++ new
    /\ Forall2 (derived path bs) new (List.filter (qualifies bs) l)
    /\ Forall (fun c => parent_id c = None) new
    /\ (forall i c, new !! i = Some c -> id c = len chunks + Z.of_nat i + 1).
Proof.
  induction l as [|n l IH]; intros chunks out; cbn [process_children].
  - intros [= <-]. exists []. rewrite app_nil_r.
    repeat split; [constructor|constructor|]. intros i c Hc.
    rewrite lookup_nil in Hc. discriminate.
  - destruct (process_node path bs n None chunks) as [r|] eqn:Hr;
      cbn [bind]; [|discriminate].
    intros Hout.
    apply process_node_spec in Hr as [[Hq ->]|[Hq (c & -> & Hc & Hid & Hp)]];
      cbn [fst] in Hout; apply IH in Hout as (new & -> & Hnew & Hpar & Hids);
      cbn [List.filter]; rewrite Hq.
    + exists new. auto.
    + exists (c :: new). rewrite <- app_assoc. cbn [app].
      repeat split; [constructor; assumption|constructor; assumption|].
      intros [|i] c' Hc'; cbn in Hc'.
      * injection Hc' as <-. rewrite Hid. lia.
      * rewrite (Hids _ _ Hc'). unfold len. rewrite length_app. cbn. lia.
Qed.

(** With no child that qualifies and every allow-listed span decodable the
    loop leaves the list as it is. *)
Lemma process_children_none path bs l chunks :
  Forall (decodable bs) l ->
  Forall (fun n => qualifies bs n = false) l ->
  process_children path bs l chunks = Ok chunks.
Proof.
  induction 1 as [|n l Hn _ IH]; intros Hq; [reflexivity|].
  apply Forall_cons in Hq as [Hqn Hq]. cbn [process_children].
  destruct (not_qualifies_decodable _ _ Hn Hqn)
    as [Hi|(Hi & text & Ht & Hlen)].
  - rewrite process_node_uninteresting by assumption. cbn. auto.
  - rewrite (process_node_small _ _ _ _ _ text) by assumption.
    cbn. auto.
Qed.

(** One allow-listed child whose span does not decode makes the loop raise,
    wherever it stands among the children. *)
Lemma process_children_raises path bs l :
  Exists (fun n => is_interesting n = true
                   /\ extract_node_text n bs = UnicodeDecodeError) l ->
  forall chunks, process_children path bs l chunks = UnicodeDecodeError.
Proof.
  induction 1 as [n l [Hi Ht]|n l _ IH]; intros chunks;
    cbn [process_children].
  - rewrite process_node_raises by assumption. reflexivity.
  - destruct (process_node path bs n None chunks); cbn [bind]; auto.
Qed.

(** The loop returns when every span it decodes is valid UTF-8. *)
Lemma process_children_returns path bs l :
  Forall (decodable bs) l ->
  Forall (fun n => qualifies bs n = true ->
                   exists md, get_node_metadata n bs = Ok md) l ->
  forall chunks, exists out, process_children path bs l chunks = Ok out.
Proof.
  induction 1 as [|n l Hn _ IH]; intros Hmd chunks;
    cbn [process_children]; [eauto|].
  apply Forall_cons in Hmd as [Hmdn Hmd].
  assert (exists r, process_node path bs n None chunks = Ok r) as [r ->].
  { unfold process_node, qualifies, decodable in *.
    destruct (is_interesting n); [|eauto].
    destruct Hn as [text Ht]; [reflexivity|]. rewrite Ht in *.
    cbn [bind andb] in *. unfold get_node_line_range.
    destruct (len (strip text) <? 5) eqn:Hlen; [eauto|].
    destruct Hmdn as [md ->]; [|cbn; eauto].
    apply Z.leb_le, Z.ltb_ge, Hlen. }
  cbn [bind]. auto.
Qed.

(** ** Metadata *)

Lemma first_name_node_type bs l (m md : gmap string meta_value) :
  first_name bs l m = Ok md ->
  md !! "node_type"%string = m !! "node_type"%string.
Proof.
  induction l as [|child l IH]; cbn [first_name].
  - intros [= <-]. reflexivity.
  - destruct (String.eqb (type child) "name"); [|assumption].
    destruct (extract_node_text child bs); cbn [bind]; [|discriminate].
    intros [= <-]. apply lookup_insert_ne. discriminate.
Qed.

(** [metadata["node_type"]] is the type of the node. *)
Lemma get_node_metadata_node_type n bs md :
  get_node_metadata n bs = Ok md ->
  md !! "node_type"%string = Some (MTag (type n)).
Proof.
  unfold get_node_metadata.
  destruct (String.eqb (type n) "function_definition").
  - intros ->%first_name_node_type. apply lookup_singleton_eq.
  - destruct (String.eqb (type n) "variable_declaration").
    + destruct (variable_list_names bs (children n) []) as [[|name names]|];
        cbn [bind]; intros [= <-].
      * apply lookup_singleton_eq.
      * rewrite lookup_insert_ne by discriminate. apply lookup_singleton_eq.
    + intros [= <-]. apply lookup_singleton_eq.
Qed.

(** Only [function_definition] and [variable_declaration] nodes get more
    than their type. *)
Lemma get_node_metadata_other n bs :
  type n <> "function_definition"%string ->
  type n <> "variable_declaration"%string ->
  get_node_metadata n bs = Ok {[ "node_type"%string := MTag (type n) ]}.
Proof.
  intros H1 H2. unfold get_node_metadata.
  apply String.eqb_neq in H1, H2. rewrite H1, H2. reflexivity.
Qed.

(** ** The whole run *)

(** What [chunk_lua_file] returns when it returns: the fallback alone when
    no child qualifies, and else one chunk per qualifying child, in order. *)
Lemma chunk_lua_file_spec path bs root out :
  chunk_lua_file path bs root = Ok out ->
  (List.filter (qualifies bs) (children root) = []
   /\ exists text, utf8_decode replace bs = Ok text
                   /\ out = [file_chunk path text root]) \/
  (List.filter (qualifies bs) (children root) <> []
   /\ Forall2 (derived path bs) out (List.filter (qualifies bs) (children root))
   /\ Forall (fun c => parent_id c = None) out
   /\ (forall i c, out !! i = Some c -> id c = Z.of_nat i + 1)).
Proof.
  unfold chunk_lua_file.
  destruct (process_children path bs (children root) []) as [chunks|] eqn:Hl;
    cbn [bind]; [|discriminate].
  apply process_children_spec in Hl as (new & -> & Hnew & Hpar & Hids).
  cbn [app] in *. destruct new as [|c new].
  - destruct (utf8_decode replace bs) as [text|]; cbn [bind]; [|discriminate].
    intros [= <-]. left. apply Forall2_nil_inv_l in Hnew. eauto.
  - intros [= <-]. right. repeat split; try assumption.
    intros Heq. rewrite Heq in Hnew. apply Forall2_nil_inv_r in Hnew.
    discriminate.
Qed.

(** The run returns when every span it decodes is valid UTF-8: the bytes
    outside those spans never make it raise. *)
Lemma chunk_lua_file_returns path bs root :
  Forall (decodable bs) (children root) ->
  Forall (fun n => qualifies bs n = true ->
                   exists md, get_node_metadata n bs = Ok md)
         (children root) ->
  exists out, chunk_lua_file path bs root = Ok out.
Proof.
  intros Hd Hmd. unfold chunk_lua_file.
  destruct (process_children_returns path bs _ Hd Hmd []) as [[|c out] ->];
    cbn [bind]; [|eauto].
  destruct (utf8_decode_replace_returns bs) as [text ->]. cbn [bind]. eauto.
Qed.

(** A chunk made of a node is never taken for the fallback. *)
Lemma derived_not_file path bs c n :
  derived path bs c n -> chunk_type c <> "file"%string.
Proof.
  intros Hc. rewrite (derived_type _ _ _ _ Hc).
  apply is_interesting_not_file, (derived_interesting _ _ _ _ Hc).
Qed.

(** ** Auxiliary facts on lists *)

Lemma Forall_filter_bool {A} (P : A -> Prop) (f : A -> bool) (l : list A) :
  Forall P l -> Forall P (List.filter f l).
Proof.
  rewrite !Forall_forall. intros H x Hx%list_elem_of_In%filter_In.
  apply H, list_elem_of_In, Hx.
Qed.

Lemma filter_bool_nonempty {A} (f : A -> bool) (l : list A) x :
  x ∈ l -> f x = true -> List.filter f l <> [].
Proof.
  intros Hx%list_elem_of_In Hf Heq.
  assert (Hin : In x (List.filter f l)) by (apply filter_In; auto).
  rewrite Heq in Hin. destruct Hin.
Qed.

(** Positions that hold their own number, counted from 1. *)
Lemma positions_seq {A} (f : A -> Z) (l : list A) :
  (forall i x, l !! i = Some x -> f x = Z.of_nat i + 1) ->
  f <$> l = Z.of_nat <$> seq 1 (length l).
Proof.
  intros H. apply list_eq. intros i.
  rewrite !list_lookup_fmap.
  destruct (l !! i) as [x|] eqn:Hx; cbn.
  - rewrite lookup_seq_lt by (eapply lookup_lt_Some; eassumption).
    cbn. f_equal. rewrite (H _ _ Hx). lia.
  - rewrite lookup_seq_ge by (apply lookup_ge_None; assumption).
    reflexivity.
Qed.

(** ** The properties of the specification *)

(** C1, as amended.  When every allow-listed top-level child has a span that
    decodes and none of them qualifies, [chunk_lua_file] returns exactly one
    chunk, the fallback: type ["file"], id 1, no parent, metadata
    [{node_type: "file"}], lines 1 to the end row of the root plus 1. *)
Theorem chunk_lua_file_fallback path bs root :
  Forall (decodable bs) (children root) ->
  Forall (fun n => qualifies bs n = false) (children root) ->
  fallback_result bs root (chunk_lua_file path bs root).
Proof.
  intros Hd Hq. unfold chunk_lua_file.
  rewrite process_children_none by assumption. cbn [bind].
  destruct (utf8_decode_replace_returns bs) as [text ->]. cbn [bind].
  exists (file_chunk path text root). repeat split.
Qed.

Lemma chunk_lua_file_fallback_witness :
  Forall (decodable Examples.small_bytes) (children Examples.small_root)
  /\ Forall (fun n => qualifies Examples.small_bytes n = false)
            (children Examples.small_root)
  /\ fallback_result Examples.small_bytes Examples.small_root
       (chunk_lua_file "small.lua" Examples.small_bytes Examples.small_root).
Proof.
  assert (Hd : Forall (decodable Examples.small_bytes)
                      (children Examples.small_root)).
  { repeat constructor. intros _. eexists. vm_compute. reflexivity. }
  assert (Hq : Forall (fun n => qualifies Examples.small_bytes n = false)
                      (children Examples.small_root)).
  { repeat constructor. }
  split; [exact Hd|]. split; [exact Hq|].
  exact (chunk_lua_file_fallback "small.lua" _ _ Hd Hq).
Defined.

(** C1, as stated, fails: a comment that holds a byte that is not UTF-8
    does not qualify, and the run raises instead of returning the fallback. *)
Lemma chunk_lua_file_fallback_counterexample :
  Forall (fun n => qualifies Examples.latin1_bytes n = false)
         (children Examples.latin1_root)
  /\ chunk_lua_file "latin1.lua" Examples.latin1_bytes Examples.latin1_root
     = UnicodeDecodeError
  /\ ~ fallback_result Examples.latin1_bytes Examples.latin1_root
         (chunk_lua_file "latin1.lua" Examples.latin1_bytes
            Examples.latin1_root).
Proof.
  split; [repeat constructor|]. split; [reflexivity|].
  intros (c & Hc & _). vm_compute in Hc. discriminate Hc.
Qed.

(** C2.  When at least one top-level child qualifies, no returned chunk is
    the fallback and there are as many chunks as qualifying children; and
    in every run the output is either made of chunks of top-level children
    only, or the fallback alone. *)
Theorem chunk_lua_file_qualifying path bs root out :
  chunk_lua_file path bs root = Ok out ->
  ((exists n, n ∈ children root /\ qualifies bs n = true) ->
   Forall (fun c => chunk_type c <> "file"%string) out
   /\ length out = length (List.filter (qualifies bs) (children root)))
  /\ (Forall (fun c => chunk_type c <> "file"%string
                       /\ exists n, n ∈ children root /\ derived path bs c n)
             out
      \/ (List.filter (qualifies bs) (children root) = []
          /\ exists text, out = [file_chunk path text root])).
Proof.
  intros [(Hnil & text & _ & ->)|(Hne & Hout & _ & _)]%chunk_lua_file_spec.
  - split; [|right; eauto].
    intros (n & Hn & Hq). destruct (filter_bool_nonempty _ _ _ Hn Hq Hnil).
  - assert (Hall : Forall (fun c => chunk_type c <> "file"%string
                /\ exists n, n ∈ children root /\ derived path bs c n) out).
    { eapply Forall2_Forall_l; [exact Hout|].
      apply Forall_forall. intros n Hn%list_elem_of_In%filter_In c Hc.
      split; [eapply derived_not_file; eassumption|].
      exists n. split; [apply list_elem_of_In, Hn|exact Hc]. }
    split; [|left; exact Hall].
    intros _. split; [|eapply Forall2_length; eassumption].
    eapply Forall_impl; [exact Hall|]. intros c [Hc _]. exact Hc.
Qed.

Lemma chunk_lua_file_qualifying_witness :
  chunk_lua_file "two.lua" Examples.two_bytes Examples.two_root
    = Ok Examples.two_chunks
  /\ (exists n, n ∈ children Examples.two_root
                /\ qualifies Examples.two_bytes n = true)
  /\ Forall (fun c => chunk_type c <> "file"%string) Examples.two_chunks
  /\ length Examples.two_chunks
     = length (List.filter (qualifies Examples.two_bytes)
                 (children Examples.two_root)).
Proof.
  assert (Hrun : chunk_lua_file "two.lua" Examples.two_bytes Examples.two_root
                 = Ok Examples.two_chunks) by (vm_compute; reflexivity).
  assert (Hq : exists n, n ∈ children Examples.two_root
                         /\ qualifies Examples.two_bytes n = true).
  { eexists. split; [apply list_elem_of_here|]. vm_compute. reflexivity. }
  split; [exact Hrun|]. split; [exact Hq|].
  exact (proj1 (chunk_lua_file_qualifying _ _ _ _ Hrun) Hq).
Defined.

(** C3.  The ids of the returned chunks are their positions counted from 1:
    they start at 1, are dense and strictly increase. *)
Theorem chunk_ids_are_positions path bs root out :
  chunk_lua_file path bs root = Ok out ->
  (forall i c, out !! i = Some c -> id c = Z.of_nat i + 1)
  /\ id <$> out = Z.of_nat <$> seq 1 (length out)
  /\ (forall i j ci cj, (i < j)%nat ->
        out !! i = Some ci -> out !! j = Some cj -> id ci < id cj).
Proof.
  intros Hrun.
  assert (Hpos : forall i c, out !! i = Some c -> id c = Z.of_nat i + 1).
  { apply chunk_lua_file_spec in Hrun
      as [(_ & text & _ & ->)|(_ & _ & _ & Hids)]; [|exact Hids].
    intros [|i] c Hc; cbn in Hc; [|discriminate].
    injection Hc as <-. reflexivity. }
  split; [exact Hpos|]. split; [apply positions_seq, Hpos|].
  intros i j ci cj Hij Hi Hj.
  rewrite (Hpos _ _ Hi), (Hpos _ _ Hj). lia.
Qed.

Lemma chunk_ids_are_positions_witness :
  chunk_lua_file "two.lua" Examples.two_bytes Examples.two_root
    = Ok Examples.two_chunks
  /\ id <$> Examples.two_chunks = [1; 2].
Proof.
  assert (Hrun : chunk_lua_file "two.lua" Examples.two_bytes Examples.two_root
                 = Ok Examples.two_chunks) by (vm_compute; reflexivity).
  split; [exact Hrun|].
  exact (proj1 (proj2 (chunk_ids_are_positions _ _ _ _ Hrun))).
Defined.

(** C4.  [process_node] makes no chunk of an allow-listed node whose
    stripped text has fewer than 5 characters, and apart from the fallback
    no returned chunk has content whose stripped length is below 5. *)
Theorem small_nodes_are_skipped path bs :
  (forall n parent chunks text,
     is_interesting n = true ->
     extract_node_text n bs = Ok text ->
     len (strip text) < 5 ->
     process_node path bs n parent chunks = Ok (chunks, None))
  /\ (forall root out,
        chunk_lua_file path bs root = Ok out ->
        forall c, c ∈ out -> chunk_type c <> "file"%string ->
        5 <= len (strip (content c))).
Proof.
  split; [intros; eapply process_node_small; eassumption|].
  intros root out
    [(_ & text & _ & ->)|(_ & Hout & _ & _)]%chunk_lua_file_spec c Hc Hfile.
  - apply list_elem_of_singleton in Hc as ->. destruct Hfile. reflexivity.
  - assert (Hall : Forall (fun c => 5 <= len (strip (content c))) out).
    { eapply Forall2_Forall_l; [exact Hout|].
      apply Forall_forall. intros n _ c' Hd.
      exact (derived_size _ _ _ _ Hd). }
    rewrite Forall_forall in Hall. apply Hall, Hc.
Qed.

Lemma small_nodes_are_skipped_witness :
  process_node "small.lua" Examples.small_bytes Examples.small_comment
    None [] = Ok ([], None)
  /\ (forall c, c ∈ Examples.two_chunks -> 5 <= len (strip (content c))).
Proof.
  split.
  - apply (proj1 (small_nodes_are_skipped "small.lua" Examples.small_bytes)
             Examples.small_comment None [] [0x2d; 0x2d; 0x78]).
    + reflexivity.
    + vm_compute. reflexivity.
    + vm_compute. reflexivity.
  - intros c Hc.
    apply (proj2 (small_nodes_are_skipped "two.lua" Examples.two_bytes)
             Examples.two_root Examples.two_chunks).
    + vm_compute. reflexivity.
    + exact Hc.
    + apply list_elem_of_In in Hc. destruct Hc as [<-|[<-|[]]]; discriminate.
Defined.

(** C5.  The content of the i-th returned chunk, the fallback apart, is the
    strict UTF-8 decoding of the span of the i-th qualifying top-level
    child, as it is. *)
Theorem chunk_content_roundtrip path bs root out :
  chunk_lua_file path bs root = Ok out ->
  forall i c, out !! i = Some c -> chunk_type c <> "file"%string ->
  exists n, List.filter (qualifies bs) (children root) !! i = Some n
    /\ n ∈ children root
    /\ chunk_type c = type n
    /\ utf8_decode strict (slice bs (start_byte n) (end_byte n))
       = Ok (content c).
Proof.
  intros [(_ & text & _ & ->)|(_ & Hout & _ & _)]%chunk_lua_file_spec
    i c Hc Hfile.
  - apply list_elem_of_lookup_2, list_elem_of_singleton in Hc as ->.
    destruct Hfile. reflexivity.
  - destruct (Forall2_lookup_l _ _ _ _ _ Hout Hc) as (n & Hn & Hd).
    exists n. split; [exact Hn|].
    split; [|split; [exact (derived_type _ _ _ _ Hd)
                    |exact (derived_content _ _ _ _ Hd)]].
    apply list_elem_of_lookup_2, list_elem_of_In, filter_In in Hn as [Hn _].
    apply list_elem_of_In, Hn.
Qed.

Lemma chunk_content_roundtrip_witness :
  chunk_lua_file "two.lua" Examples.two_bytes Examples.two_root
    = Ok Examples.two_chunks
  /\ exists c n, Examples.two_chunks !! 1%nat = Some c
       /\ children Examples.two_root !! 1%nat = Some n
       /\ utf8_decode strict
            (slice Examples.two_bytes (start_byte n) (end_byte n))
          = Ok (content c).
Proof.
  assert (Hrun : chunk_lua_file "two.lua" Examples.two_bytes Examples.two_root
                 = Ok Examples.two_chunks) by (vm_compute; reflexivity).
  split; [exact Hrun|].
  destruct (chunk_content_roundtrip _ _ _ _ Hrun 1%nat
              (Chunk 2 "two.lua" "function_definition"
                 (byte_val <$> slice Examples.two_bytes 28 44)
                 (<["name"%string := MStr [0x62]]>
                    {[ "node_type"%string := MTag "function_definition" ]})
                 5 5 None))
    as (n & Hn & _ & _ & Hdec); [reflexivity|discriminate|].
  vm_compute in Hn. injection Hn as <-.
  eexists _, _. split; [reflexivity|]. split; [reflexivity|exact Hdec].
Defined.

(** A [local_function] node gets its type and nothing else as metadata,
    whatever its children. *)
Lemma local_function_metadata n bs :
  type n = "local_function"%string ->
  get_node_metadata n bs = Ok {[ "node_type"%string := MTag "local_function" ]}.
Proof.
  intros Ht. rewrite get_node_metadata_other; rewrite Ht; [reflexivity|..];
    discriminate.
Qed.








(** C7.  An allow-listed top-level child whose span is not valid UTF-8
    makes the run raise the decoding error; on the fallback path, reached
    when the loop leaves no chunk, the whole buffer is decoded with the
    [replace] handler, which returns for every buffer. *)
Theorem decoding_strict_for_nodes_lenient_for_file path bs root :
  (Exists (fun n => is_interesting n = true
                    /\ extract_node_text n bs = UnicodeDecodeError)
          (children root) ->
   chunk_lua_file path bs root = UnicodeDecodeError)
  /\ (process_children path bs (children root) [] = Ok [] ->
      exists text, utf8_decode replace bs = Ok text
        /\ chunk_lua_file path bs root = Ok [file_chunk path text root]).
Proof.
  unfold chunk_lua_file. split.
  - intros H. rewrite process_children_raises by exact H. reflexivity.
  - intros ->. cbn [bind].
    destruct (utf8_decode_replace_returns bs) as [text Ht].
    exists text. rewrite Ht. split; reflexivity.
Qed.

Lemma decoding_strict_for_nodes_lenient_for_file_witness :
  chunk_lua_file "latin1.lua" Examples.latin1_bytes Examples.latin1_root
    = UnicodeDecodeError
  /\ utf8_decode replace Examples.binary_bytes = Ok [0xFFFD; 0xFFFD; 0x41]
  /\ chunk_lua_file "binary.lua" Examples.binary_bytes Examples.binary_root
     = Ok [file_chunk "binary.lua" [0xFFFD; 0xFFFD; 0x41]
             Examples.binary_root].
Proof.
  split.
  - apply (proj1 (decoding_strict_for_nodes_lenient_for_file
                    "latin1.lua" Examples.latin1_bytes Examples.latin1_root)).
    apply Exists_cons_hd. split; reflexivity.
  - destruct (proj2 (decoding_strict_for_nodes_lenient_for_file
                       "binary.lua" Examples.binary_bytes
                       Examples.binary_root) eq_refl)
      as (text & Htext & Hrun).
    split; [reflexivity|].
    vm_compute in Htext. injection Htext as <-. exact Hrun.
Defined.

(** C8.  When no top-level child ends on a row before the one it starts
    on, every returned chunk has [1 <= line_start <= line_end]. *)
Theorem chunk_lines_ordered path bs root out :
  Forall (fun n => (fst (start_point n) <= fst (end_point n))%nat)
         (children root) ->
  chunk_lua_file path bs root = Ok out ->
  Forall (fun c => 1 <= line_start c /\ 1 <= line_end c
                   /\ line_start c <= line_end c) out.
Proof.
  intros Hrows
    [(_ & text & _ & ->)|(_ & Hout & _ & _)]%chunk_lua_file_spec.
  - repeat constructor; cbn; lia.
  - eapply Forall2_Forall_l; [exact Hout|].
    eapply Forall_impl; [apply Forall_filter_bool, Hrows|].
    intros n Hn c Hc. cbn in Hn.
    rewrite (derived_line_start _ _ _ _ Hc), (derived_line_end _ _ _ _ Hc).
    lia.
Qed.

Lemma chunk_lines_ordered_witness :
  Forall (fun n => (fst (start_point n) <= fst (end_point n))%nat)
         (children Examples.two_root)
  /\ chunk_lua_file "two.lua" Examples.two_bytes Examples.two_root
     = Ok Examples.two_chunks
  /\ Forall (fun c => 1 <= line_start c /\ 1 <= line_end c
                      /\ line_start c <= line_end c) Examples.two_chunks.
Proof.
  assert (Hrows : Forall
            (fun n => (fst (start_point n) <= fst (end_point n))%nat)
            (children Examples.two_root)).
  { repeat constructor; cbn; lia. }
  assert (Hrun : chunk_lua_file "two.lua" Examples.two_bytes Examples.two_root
                 = Ok Examples.two_chunks) by (vm_compute; reflexivity).
  split; [exact Hrows|]. split; [exact Hrun|].
  exact (chunk_lines_ordered _ _ _ _ Hrows Hrun).
Defined.

(** C9.  Every returned chunk, made of a node or the fallback, has no
    parent. *)
Theorem chunk_parent_is_none path bs root out :
  chunk_lua_file path bs root = Ok out ->
  Forall (fun c => parent_id c = None) out.
Proof.
  intros [(_ & text & _ & ->)|(_ & _ & Hpar & _)]%chunk_lua_file_spec.
  - repeat constructor.
  - exact Hpar.
Qed.

Lemma chunk_parent_is_none_witness :
  chunk_lua_file "two.lua" Examples.two_bytes Examples.two_root
    = Ok Examples.two_chunks
  /\ Forall (fun c => parent_id c = None) Examples.two_chunks.
Proof.
  assert (Hrun : chunk_lua_file "two.lua" Examples.two_bytes Examples.two_root
                 = Ok Examples.two_chunks) by (vm_compute; reflexivity).
  split; [exact Hrun|]. exact (chunk_parent_is_none _ _ _ _ Hrun).
Defined.

(** C10.  In every returned chunk the metadata holds [node_type], and its
    value is the chunk's [chunk_type]. *)
Theorem chunk_metadata_node_type path bs root out :
  chunk_lua_file path bs root = Ok out ->
  Forall (fun c => metadata c !! "node_type"%string
                   = Some (MTag (chunk_type c))) out.
Proof.
  intros [(_ & text & _ & ->)|(_ & Hout & _ & _)]%chunk_lua_file_spec.
  - repeat constructor.
  - eapply Forall2_Forall_l; [exact Hout|].
    apply Forall_forall. intros n _ c Hc.
    rewrite (derived_type _ _ _ _ Hc).
    apply (get_node_metadata_node_type _ bs), (derived_metadata _ _ _ _ Hc).
Qed.

Lemma chunk_metadata_node_type_witness :
  chunk_lua_file "two.lua" Examples.two_bytes Examples.two_root
    = Ok Examples.two_chunks
  /\ Forall (fun c => metadata c !! "node_type"%string
                      = Some (MTag (chunk_type c))) Examples.two_chunks.
Proof.
  assert (Hrun : chunk_lua_file "two.lua" Examples.two_bytes Examples.two_root
                 = Ok Examples.two_chunks) by (vm_compute; reflexivity).
  split; [exact Hrun|]. exact (chunk_metadata_node_type _ _ _ _ Hrun).
Defined.

(** ** Further properties of [get_node_metadata] *)

Lemma first_name_skips bs pre l (m : gmap string meta_value) :
  Forall (fun x => type x <> "name"%string) pre ->
  first_name bs (pre ++ l) m = first_name bs l m.
Proof.
  induction 1 as [|x pre Hx _ IH]; [reflexivity|].
  cbn [app first_name]. apply String.eqb_neq in Hx. rewrite Hx. exact IH.
Qed.

(** X1.  The name of a [function_definition] is the text of its first child
    of type [name]: the children after it are not looked at, and the call
    raises exactly when the span of that child does not decode. *)
Theorem function_name_is_first_name_child n bs pre c post :
  type n = "function_definition"%string ->
  children n = pre ++ c :: post ->
  Forall (fun x => type x <> "name"%string) pre ->
  type c = "name"%string ->
  get_node_metadata n bs =
    do text <- extract_node_text c bs ;
    Ok (<["name"%string := MStr text]>
          {[ "node_type"%string := MTag "function_definition" ]}).
Proof.
  intros Ht Hch Hpre Hc. unfold get_node_metadata.
  rewrite Ht, Hch. cbn [String.eqb Ascii.eqb Bool.eqb].
  rewrite first_name_skips by exact Hpre.
  cbn [first_name]. rewrite Hc. reflexivity.
Qed.

Lemma function_name_is_first_name_child_witness :
  get_node_metadata
    (Node "function_definition" 0 26 (0%nat, 0%nat) (2%nat, 3%nat)
       [ Node "function" 0 8 (0%nat, 0%nat) (0%nat, 8%nat) [];
         Node "name" 9 10 (0%nat, 9%nat) (0%nat, 10%nat) [];
         Node "name" 500 600 (0%nat, 0%nat) (0%nat, 0%nat) [] ])
    Examples.two_bytes
  = Ok (<["name"%string := MStr [0x61]]>
          {[ "node_type"%string := MTag "function_definition" ]}).
Proof.
  rewrite (function_name_is_first_name_child _ Examples.two_bytes
             [ Node "function" 0 8 (0%nat, 0%nat) (0%nat, 8%nat) [] ]
             (Node "name" 9 10 (0%nat, 9%nat) (0%nat, 10%nat) [])
             [ Node "name" 500 600 (0%nat, 0%nat) (0%nat, 0%nat) [] ]).
  - reflexivity.
  - reflexivity.
  - reflexivity.
  - repeat constructor. discriminate.
  - reflexivity.
Defined.

Lemma first_name_lookup bs l (m md : gmap string meta_value) :
  m !! "name"%string = None ->
  first_name bs l m = Ok md ->
  (is_Some (md !! "name"%string)
   <-> Exists (fun x => type x = "name"%string) l)
  /\ (forall k, k <> "name"%string -> md !! k = m !! k).
Proof.
  intros Hm. induction l as [|x l IH]; cbn [first_name].
  - intros [= <-]. split; [|reflexivity]. rewrite Hm. split.
    + intros [v Hv]. discriminate Hv.
    + intros H. inversion H.
  - destruct (String.eqb (type x) "name") eqn:Hx.
    + destruct (extract_node_text x bs) as [text|]; cbn [bind];
        [|discriminate].
      intros [= <-]. apply String.eqb_eq in Hx. split.
      * rewrite lookup_insert_eq. split; [|eauto].
        intros _. apply Exists_cons_hd, Hx.
      * intros k Hk. apply lookup_insert_ne. congruence.
    + intros [Hiff Hother]%IH. split; [|exact Hother].
      rewrite Hiff. apply String.eqb_neq in Hx. split.
      * intros H. apply Exists_cons_tl, H.
      * intros H. inversion H; subst; [contradiction|assumption].
Qed.

(** X2.  The metadata has a [name] exactly for a [function_definition] with
    a child of type [name]; elsewhere the key is left out. *)
Theorem metadata_name_iff n bs md :
  get_node_metadata n bs = Ok md ->
  (is_Some (md !! "name"%string)
   <-> type n = "function_definition"%string
       /\ Exists (fun x => type x = "name"%string) (children n)).
Proof.
  unfold get_node_metadata.
  destruct (String.eqb (type n) "function_definition") eqn:Hf.
  - apply String.eqb_eq in Hf.
    intros [Hiff _]%first_name_lookup; [|reflexivity].
    rewrite Hiff. tauto.
  - apply String.eqb_neq in Hf.
    assert (Hno : forall md' : gmap string meta_value,
              md' !! "name"%string = None ->
              (is_Some (md' !! "name"%string)
               <-> type n = "function_definition"%string
                   /\ Exists (fun x => type x = "name"%string) (children n))).
    { intros md' ->. split; [intros [v Hv]; discriminate Hv|tauto]. }
    destruct (String.eqb (type n) "variable_declaration").
    + destruct (variable_list_names bs (children n) []) as [[|x names]|];
        cbn [bind]; intros [= <-]; apply Hno; reflexivity.
    + intros [= <-]. apply Hno. reflexivity.
Qed.

Lemma metadata_name_iff_witness :
  is_Some ((<["name"%string := MStr [0x61]]>
              ({[ "node_type"%string := MTag "function_definition" ]}
                 : gmap string meta_value)) !! "name"%string).
Proof.
  apply (metadata_name_iff
           (Node "function_definition" 0 26 (0%nat, 0%nat) (2%nat, 3%nat)
              [ Node "name" 9 10 (0%nat, 9%nat) (0%nat, 10%nat) [] ])
           Examples.two_bytes).
  - reflexivity.
  - split; [reflexivity|]. apply Exists_cons_hd. reflexivity.
Defined.

Lemma decode_all_app bs l1 l2 :
  decode_all bs (l1 ++ l2) =
    do t1 <- decode_all bs l1 ; do t2 <- decode_all bs l2 ; Ok (t1 ++ t2).
Proof.
  induction l1 as [|x l1 IH]; cbn [app decode_all bind].
  - destruct (decode_all bs l2); reflexivity.
  - destruct (extract_node_text x bs); cbn [bind]; [|reflexivity].
    rewrite IH. destruct (decode_all bs l1); cbn [bind]; [|reflexivity].
    destruct (decode_all bs l2); reflexivity.
Qed.

Lemma identifier_names_spec bs l : forall names,
  identifier_names bs l names =
    do texts <- decode_all bs
                  (List.filter (fun x => String.eqb (type x) "identifier") l) ;
    Ok (names ++ texts).
Proof.
  induction l as [|x l IH]; intros names;
    cbn [identifier_names List.filter decode_all bind].
  - rewrite app_nil_r. reflexivity.
  - destruct (String.eqb (type x) "identifier"); [|apply IH].
    cbn [decode_all]. destruct (extract_node_text x bs); cbn [bind];
      [|reflexivity].
    rewrite IH. destruct (decode_all bs _); cbn [bind]; [|reflexivity].
    rewrite <- app_assoc. reflexivity.
Qed.

Lemma variable_list_names_spec bs l : forall names,
  variable_list_names bs l names =
    do texts <- decode_all bs
                  (List.filter (fun x => String.eqb (type x) "identifier")
                     (concat (children <$>
                        List.filter
                          (fun c => String.eqb (type c) "variable_list") l))) ;
    Ok (names ++ texts).
Proof.
  induction l as [|c l IH]; intros names;
    cbn [variable_list_names List.filter fmap list_fmap concat decode_all bind].
  - rewrite app_nil_r. reflexivity.
  - destruct (String.eqb (type c) "variable_list"); [|apply IH].
    cbn [fmap list_fmap concat].
    rewrite List.filter_app, decode_all_app, identifier_names_spec.
    destruct (decode_all bs (List.filter _ (children c))); cbn [bind];
      [|reflexivity].
    rewrite IH. destruct (decode_all bs _); cbn [bind]; [|reflexivity].
    rewrite <- app_assoc. reflexivity.
Qed.

(** X3.  For a [variable_declaration] the two nested loops collect the texts
    of the [identifier] children of its [variable_list] children, in
    document order; [names] is left out when there is none, and the call
    raises exactly when one of those spans does not decode. *)
Theorem variable_names_are_declared_identifiers n bs :
  type n = "variable_declaration"%string ->
  get_node_metadata n bs =
    do names <- decode_all bs (declared_identifiers n) ;
    Ok (match names with
        | [] => {[ "node_type"%string := MTag "variable_declaration" ]}
        | _ :: _ => <["names"%string := MList names]>
                      {[ "node_type"%string := MTag "variable_declaration" ]}
        end).
Proof.
  intros Ht. unfold get_node_metadata, declared_identifiers.
  rewrite Ht. cbn [String.eqb Ascii.eqb Bool.eqb].
  rewrite variable_list_names_spec.
  destruct (decode_all bs _) as [[|x names]|]; reflexivity.
Qed.

Lemma variable_names_are_declared_identifiers_witness :
  get_node_metadata
    (Node "variable_declaration" 0 12 (0%nat, 0%nat) (0%nat, 12%nat)
       [ Node "local" 0 5 (0%nat, 0%nat) (0%nat, 5%nat) [];
         Node "variable_list" 6 10 (0%nat, 6%nat) (0%nat, 10%nat)
           [ Node "identifier" 6 7 (0%nat, 6%nat) (0%nat, 7%nat) [];
             Node "," 7 8 (0%nat, 7%nat) (0%nat, 8%nat) [];
             Node "identifier" 9 10 (0%nat, 9%nat) (0%nat, 10%nat) [] ];
         Node "identifier" 11 12 (0%nat, 11%nat) (0%nat, 12%nat) [] ])
    (String.list_byte_of_string "local a, b c")
  = Ok (<["names"%string := MList [[0x61]; [0x62]]]>
          {[ "node_type"%string := MTag "variable_declaration" ]}).
Proof.
  rewrite variable_names_are_declared_identifiers by reflexivity.
  vm_compute. reflexivity.
Defined.

(** X4.  The metadata holds no key but [node_type], [name] and [names], and
    never both [name] and [names]. *)
Theorem metadata_keys n bs md :
  get_node_metadata n bs = Ok md ->
  (forall k, is_Some (md !! k) ->
     k = "node_type"%string \/ k = "name"%string \/ k = "names"%string)
  /\ ~ (is_Some (md !! "name"%string) /\ is_Some (md !! "names"%string)).
Proof.
  assert (Hbase : forall (t : string) k,
            is_Some (({[ "node_type"%string := MTag t ]}
                        : gmap string meta_value) !! k) ->
            k = "node_type"%string).
  { intros t k [v Hv]. apply lookup_singleton_Some in Hv as [Hk _].
    symmetry. exact Hk. }
  unfold get_node_metadata.
  destruct (String.eqb (type n) "function_definition").
  - intros [_ Hother]%first_name_lookup; [|reflexivity]. split.
    + intros k Hk. destruct (decide (k = "name"%string)) as [->|Hne];
        [auto|]. rewrite Hother in Hk by exact Hne. left. eapply Hbase, Hk.
    + intros [_ [v Hv]]. rewrite Hother in Hv by discriminate.
      discriminate Hv.
  - destruct (String.eqb (type n) "variable_declaration").
    + destruct (variable_list_names bs (children n) []) as [[|x names]|];
        cbn [bind]; intros [= <-].
      * split; [intros k Hk; left; eapply Hbase, Hk|].
        intros [[v Hv] _]. discriminate Hv.
      * split; [|intros [[v Hv] _]; discriminate Hv].
        intros k Hk. destruct (decide (k = "names"%string)) as [->|Hne];
          [auto|]. rewrite lookup_insert_ne in Hk by congruence.
        left. eapply Hbase, Hk.
    + intros [= <-]. split; [intros k Hk; left; eapply Hbase, Hk|].
      intros [[v Hv] _]. discriminate Hv.
Qed.

Lemma metadata_keys_witness :
  ~ (is_Some ((<["name"%string := MStr [0x61]]>
                 ({[ "node_type"%string := MTag "function_definition" ]}
                    : gmap string meta_value)) !! "name"%string)
     /\ is_Some ((<["name"%string := MStr [0x61]]>
                    ({[ "node_type"%string := MTag "function_definition" ]}
                       : gmap string meta_value)) !! "names"%string)).
Proof.
  apply (metadata_keys
           (Node "function_definition" 0 26 (0%nat, 0%nat) (2%nat, 3%nat)
              [ Node "name" 9 10 (0%nat, 9%nat) (0%nat, 10%nat) [] ])
           Examples.two_bytes).
  reflexivity.
Defined.

(** ** Further properties of [chunk_lua_file] *)

(** X5.  A run that returns never returns the empty list, and never more
    chunks than the root has children (one, for a root without children). *)
Theorem chunk_lua_file_length path bs root out :
  chunk_lua_file path bs root = Ok out ->
  out <> [] /\ (length out <= Nat.max 1 (length (children root)))%nat.
Proof.
  intros [(_ & text & _ & ->)|(Hne & Hout & _ & _)]%chunk_lua_file_spec.
  - split; [discriminate|]. cbn [length]. lia.
  - apply Forall2_length in Hout.
    pose proof (List.filter_length_le (qualifies bs) (children root)) as Hle.
    split; [|lia].
    intros ->. destruct (List.filter (qualifies bs) (children root));
      [contradiction|discriminate].
Qed.

Lemma chunk_lua_file_length_witness :
  chunk_lua_file "two.lua" Examples.two_bytes Examples.two_root
    = Ok Examples.two_chunks
  /\ Examples.two_chunks <> []
  /\ (length Examples.two_chunks
      <= Nat.max 1 (length (children Examples.two_root)))%nat.
Proof.
  assert (Hrun : chunk_lua_file "two.lua" Examples.two_bytes Examples.two_root
                 = Ok Examples.two_chunks) by (vm_compute; reflexivity).
  split; [exact Hrun|]. exact (chunk_lua_file_length _ _ _ _ Hrun).
Defined.

(** X6.  Every returned chunk carries the path the run was given. *)
Theorem chunk_file_path path bs root out :
  chunk_lua_file path bs root = Ok out ->
  Forall (fun c => file_path c = path) out.
Proof.
  intros [(_ & text & _ & ->)|(_ & Hout & _ & _)]%chunk_lua_file_spec.
  - repeat constructor.
  - eapply Forall2_Forall_l; [exact Hout|].
    apply Forall_forall. intros n _ c Hc. exact (derived_path _ _ _ _ Hc).
Qed.

Lemma chunk_file_path_witness :
  chunk_lua_file "two.lua" Examples.two_bytes Examples.two_root
    = Ok Examples.two_chunks
  /\ Forall (fun c => file_path c = "two.lua"%string) Examples.two_chunks.
Proof.
  assert (Hrun : chunk_lua_file "two.lua" Examples.two_bytes Examples.two_root
                 = Ok Examples.two_chunks) by (vm_compute; reflexivity).
  split; [exact Hrun|]. exact (chunk_file_path _ _ _ _ Hrun).
Defined.

Lemma process_node_returns_inv path bs n parent chunks r :
  process_node path bs n parent chunks = Ok r ->
  decodable bs n
  /\ (qualifies bs n = true -> exists md, get_node_metadata n bs = Ok md).
Proof.
  unfold process_node, decodable, qualifies.
  destruct (is_interesting n); cbn [andb]; [|split; discriminate].
  destruct (extract_node_text n bs) as [text|]; cbn [bind]; [|discriminate].
  unfold get_node_line_range.
  destruct (len (strip text) <? 5) eqn:Hlen.
  - intros _. split; [eauto|]. intros H%Z.leb_le. apply Z.ltb_lt in Hlen. lia.
  - destruct (get_node_metadata n bs) as [md|]; cbn [bind]; [|discriminate].
    eauto.
Qed.

Lemma process_children_returns_inv path bs l : forall chunks out,
  process_children path bs l chunks = Ok out ->
  Forall (decodable bs) l
  /\ Forall (fun n => qualifies bs n = true ->
                      exists md, get_node_metadata n bs = Ok md) l.
Proof.
  induction l as [|n l IH]; intros chunks out; cbn [process_children];
    [split; constructor|].
  destruct (process_node path bs n None chunks) as [r|] eqn:Hr;
    cbn [bind]; [|discriminate].
  intros [Hd Hmd]%IH. apply process_node_returns_inv in Hr as [Hdn Hmdn].
  split; constructor; assumption.
Qed.

(** X7.  The run returns exactly when the span of every allow-listed
    top-level child decodes and the metadata of every qualifying child can
    be built; otherwise it raises the decoding error. *)
Theorem chunk_lua_file_returns_iff path bs root :
  (exists out, chunk_lua_file path bs root = Ok out)
  <-> Forall (decodable bs) (children root)
      /\ Forall (fun n => qualifies bs n = true ->
                          exists md, get_node_metadata n bs = Ok md)
                (children root).
Proof.
  split.
  - intros [out Hrun]. unfold chunk_lua_file in Hrun.
    destruct (process_children path bs (children root) []) as [chunks|] eqn:Hl;
      [|discriminate].
    eapply process_children_returns_inv, Hl.
  - intros [Hd Hmd]. apply chunk_lua_file_returns; assumption.
Qed.

(** A function whose [name] child has a span that is not UTF-8, in a file
    whose function text is: the name span lies past the function. *)
Lemma chunk_lua_file_returns_iff_witness :
  ~ (exists out,
       chunk_lua_file "bad.lua"
         (String.list_byte_of_string "function a() end" ++ [xff])
         (Node "chunk" 0 17 (0%nat, 0%nat) (0%nat, 17%nat)
            [ Node "function_definition" 0 16 (0%nat, 0%nat) (0%nat, 16%nat)
                [ Node "name" 16 17 (0%nat, 16%nat) (0%nat, 17%nat) [] ] ])
       = Ok out).
Proof.
  intros [_ Hmd]%chunk_lua_file_returns_iff.
  apply Forall_cons in Hmd as [Hmd _].
  destruct Hmd as [md Hmd]; [reflexivity|]. discriminate Hmd.
Defined.

(** X8.  When the file is valid UTF-8 the fallback chunk holds its exact
    text: the [replace] handler changes nothing. *)
Theorem fallback_content_lossless path bs root text :
  utf8_decode strict bs = Ok text ->
  Forall (decodable bs) (children root) ->
  Forall (fun n => qualifies bs n = false) (children root) ->
  chunk_lua_file path bs root = Ok [file_chunk path text root].
Proof.
  intros Ht%utf8_decode_strict_replace Hd Hq. unfold chunk_lua_file.
  rewrite process_children_none by assumption. cbn [bind].
  rewrite Ht. reflexivity.
Qed.

Lemma fallback_content_lossless_witness :
  chunk_lua_file "small.lua" Examples.small_bytes Examples.small_root
  = Ok [file_chunk "small.lua" [0x2d; 0x2d; 0x78] Examples.small_root].
Proof.
  apply fallback_content_lossless.
  - reflexivity.
  - repeat constructor. intros _. eexists. vm_compute. reflexivity.
  - repeat constructor.
Defined.

Lemma StronglySorted_filter_bool {A} (R : A -> A -> Prop) (f : A -> bool) l :
  StronglySorted R l -> StronglySorted R (List.filter f l).
Proof.
  induction 1 as [|x l _ IH Hx]; cbn [List.filter]; [constructor|].
  destruct (f x); [|exact IH].
  constructor; [exact IH|apply Forall_filter_bool, Hx].
Qed.

Lemma StronglySorted_Forall2 {A B} (P : A -> B -> Prop)
    (R : B -> B -> Prop) (R' : A -> A -> Prop) l k :
  (forall a b x y, P a x -> P b y -> R x y -> R' a b) ->
  Forall2 P l k -> StronglySorted R k -> StronglySorted R' l.
Proof.
  intros HR. induction 1 as [|a x l k Hax Hlk IH]; intros Hk; [constructor|].
  apply StronglySorted_inv in Hk as [Hk Hx].
  constructor; [apply IH, Hk|].
  clear IH Hk. induction Hlk as [|b y l k Hby _ IH]; [constructor|].
  apply Forall_cons in Hx as [Hxy Hx].
  constructor; [eapply HR; eassumption|apply IH, Hx].
Qed.

(** X9.  When each top-level child ends on a row before the one the next
    child starts on, the returned chunks have disjoint line ranges, in the
    order of the output. *)
Theorem chunk_lines_disjoint path bs root out :
  StronglySorted
    (fun n m => (fst (end_point n) < fst (start_point m))%nat)
    (children root) ->
  chunk_lua_file path bs root = Ok out ->
  StronglySorted (fun c d => line_end c < line_start d) out.
Proof.
  intros Hrows
    [(_ & text & _ & ->)|(_ & Hout & _ & _)]%chunk_lua_file_spec.
  - repeat constructor.
  - eapply StronglySorted_Forall2;
      [|exact Hout|apply StronglySorted_filter_bool, Hrows].
    intros c d n m Hc Hd Hnm. cbn in Hnm.
    rewrite (derived_line_end _ _ _ _ Hc), (derived_line_start _ _ _ _ Hd).
    lia.
Qed.

Lemma chunk_lines_disjoint_witness :
  StronglySorted
    (fun n m => (fst (end_point n) < fst (start_point m))%nat)
    (children Examples.two_root)
  /\ chunk_lua_file "two.lua" Examples.two_bytes Examples.two_root
     = Ok Examples.two_chunks
  /\ StronglySorted (fun c d => line_end c < line_start d) Examples.two_chunks.
Proof.
  assert (Hrows : StronglySorted
            (fun n m => (fst (end_point n) < fst (start_point m))%nat)
            (children Examples.two_root)).
  { repeat constructor; cbn; lia. }
  assert (Hrun : chunk_lua_file "two.lua" Examples.two_bytes Examples.two_root
                 = Ok Examples.two_chunks) by (vm_compute; reflexivity).
  split; [exact Hrows|]. split; [exact Hrun|].
  exact (chunk_lines_disjoint _ _ _ _ Hrows Hrun).
Defined.

(** ** Properties of [store_chunks] *)

(** The fields every returned chunk has, together. *)
Lemma chunk_lua_file_fields path bs root out :
  chunk_lua_file path bs root = Ok out ->
  Forall (fun c => file_path c = path
                   /\ parent_id c = None
                   /\ metadata c !! "node_type"%string
                      = Some (MTag (chunk_type c))) out.
Proof.
  intros [(_ & text & _ & ->)|(_ & Hout & Hpar & _)]%chunk_lua_file_spec.
  - repeat constructor.
  - apply Forall_and. split; [|apply Forall_and; split; [exact Hpar|]];
      (eapply Forall2_Forall_l; [exact Hout|]);
      apply Forall_forall; intros n _ c Hc.
    + exact (derived_path _ _ _ _ Hc).
    + rewrite (derived_type _ _ _ _ Hc).
      apply (get_node_metadata_node_type _ bs), (derived_metadata _ _ _ _ Hc).
Qed.

Section StoreFacts.

Context {embedding : Type}.
Variable ollama_embeddings : str -> option embedding.
Variable openai_embedding_create : str -> option embedding.
Variable USE_OLLAMA : bool.
Variable api_key : string.
Variable execute : list (row embedding) -> row embedding -> bool.

Local Abbreviation generate :=
  (generate_embedding ollama_embeddings openai_embedding_create
     USE_OLLAMA api_key).
Local Abbreviation store :=
  (store_chunks ollama_embeddings openai_embedding_create
     USE_OLLAMA api_key execute).
Local Abbreviation to_store :=
  (rows_to_store ollama_embeddings openai_embedding_create
     USE_OLLAMA api_key).

Lemma rows_to_store_cons c chunks :
  to_store (c :: chunks) =
    match generate (content c) with
    | Some e => row_of c e :: to_store chunks
    | None => to_store chunks
    end.
Proof.
  unfold rows_to_store. cbn [omap list_omap].
  destruct (generate (content c)); reflexivity.
Qed.

(** X10.  [store_chunks] only appends to the table, the rows of the chunks
    whose embedding is generated, in the order of the chunks: all of them
    when it completes, and those before the first row the database refuses
    when it raises.  A chunk whose embedding fails is passed over and does
    not stop the others. *)
Theorem store_chunks_rows chunks : forall table table' o,
  store_chunks ollama_embeddings openai_embedding_create USE_OLLAMA api_key
    execute chunks table = (table', o) ->
  exists rows,
    table' = table ++ rows
    /\ rows `prefix_of`
         rows_to_store ollama_embeddings openai_embedding_create
           USE_OLLAMA api_key chunks
    /\ (o = Completed ->
        rows = rows_to_store ollama_embeddings openai_embedding_create
                 USE_OLLAMA api_key chunks)
    /\ (o = Raised ->
        exists r rest,
          rows_to_store ollama_embeddings openai_embedding_create
            USE_OLLAMA api_key chunks = rows ++ r :: rest
          /\ execute (table ++ rows) r = false).
Proof.
  induction chunks as [|c chunks IH]; intros table table' o.
  - intros [= <- <-]. exists []. rewrite app_nil_r.
    repeat split; [apply prefix_nil|discriminate].
  - cbn [store_chunks]. rewrite rows_to_store_cons.
    destruct (generate (content c)) as [e|]; [|apply IH].
    destruct (execute table (row_of c e)) eqn:Hex.
    + intros (rows & -> & Hpre & Hall & Hraised)%IH.
      exists (row_of c e :: rows). rewrite <- app_assoc.
      split; [reflexivity|]. split; [apply prefix_cons, Hpre|].
      split; [intros ->%Hall; reflexivity|].
      intros (r & rest & -> & Hr)%Hraised. exists r, rest.
      rewrite <- app_assoc in Hr. split; [reflexivity|exact Hr].
    + intros [= <- <-]. exists []. rewrite !app_nil_r.
      split; [reflexivity|]. split; [apply prefix_nil|].
      split; [discriminate|]. intros _. eexists _, _.
      split; [reflexivity|exact Hex].
Qed.

(** X12.  The rows stored for a file carry its path, have no parent, and
    hold their chunk type as [node_type]. *)
Theorem stored_rows_of_file path bs root chunks table table' o :
  chunk_lua_file path bs root = Ok chunks ->
  store_chunks ollama_embeddings openai_embedding_create USE_OLLAMA api_key
    execute chunks table = (table', o) ->
  exists rows,
    table' = table ++ rows
    /\ (length rows <= length chunks)%nat
    /\ Forall (fun r => row_file_path r = path
                        /\ row_parent_id r = None
                        /\ row_meta_data r !! "node_type"%string
                           = Some (MTag (row_chunk_type r))) rows.
Proof.
  intros Hf%chunk_lua_file_fields (rows & -> & [rest Hpre] & _ & _)%store_chunks_rows.
  exists rows. split; [reflexivity|].
  assert (Hall : Forall (fun r => row_file_path r = path
                        /\ row_parent_id r = None
                        /\ row_meta_data r !! "node_type"%string
                           = Some (MTag (row_chunk_type r)))
                   (to_store chunks)
                 /\ (length (to_store chunks) <= length chunks)%nat).
  { clear Hpre. induction Hf as [|c chunks Hc _ [IH1 IH2]];
      [split; [constructor|reflexivity]|].
    rewrite rows_to_store_cons.
    destruct (generate (content c)) as [e|]; cbn [length];
      [|split; [exact IH1|lia]].
    split; [constructor; [exact Hc|exact IH1]|lia]. }
  destruct Hall as [Hall Hlen]. rewrite Hpre in Hall, Hlen.
  rewrite length_app in Hlen. apply Forall_app in Hall as [Hall _].
  split; [lia|exact Hall].
Qed.

End StoreFacts.

(** X11.  With Ollama switched off and no OpenAI key every embedding raises:
    [store_chunks] stores nothing, whatever the chunks, and completes. *)
Theorem store_chunks_without_backend {embedding : Type}
    (ollama_embeddings openai_embedding_create : list Z -> option embedding)
    (execute : list (row embedding) -> row embedding -> bool)
    (chunks : list chunk) (table : list (row embedding)) :
  store_chunks ollama_embeddings openai_embedding_create false "" execute
    chunks table = (table, Completed).
Proof.
  induction chunks as [|c chunks IH]; [reflexivity|exact IH].
Qed.

Lemma store_chunks_rows_witness :
  exists rows : list (row (list Z)),
    [row_of (Chunk 2 "two.lua" "function_definition"
               (byte_val <$> slice Examples.two_bytes 28 44)
               (<["name"%string := MStr [0x62]]>
                  {[ "node_type"%string := MTag "function_definition" ]})
               5 5 None)
       (byte_val <$> slice Examples.two_bytes 28 44)] = [] ++ rows
    /\ rows `prefix_of`
         rows_to_store
           (fun text => if (len text <? 20) then Some text else None)
           (fun _ => None) true "" Examples.two_chunks.
Proof.
  destruct (store_chunks_rows
              (fun text => if (len text <? 20) then Some text else None)
              (fun _ => None) true "" (fun _ _ => true)
              Examples.two_chunks []
              [row_of (Chunk 2 "two.lua" "function_definition"
                         (byte_val <$> slice Examples.two_bytes 28 44)
                         (<["name"%string := MStr [0x62]]>
                            {[ "node_type"%string
                               := MTag "function_definition" ]})
                         5 5 None)
                 (byte_val <$> slice Examples.two_bytes 28 44)]
              Completed)
    as (rows & Htable & Hpre & _).
  - vm_compute. reflexivity.
  - exists rows. split; [exact Htable|exact Hpre].
Defined.

Lemma stored_rows_of_file_witness :
  exists rows : list (row (list Z)),
    (length rows <= 2)%nat
    /\ Forall (fun r => row_file_path r = "two.lua"%string
                        /\ row_parent_id r = None
                        /\ row_meta_data r !! "node_type"%string
                           = Some (MTag (row_chunk_type r))) rows.
Proof.
  destruct (stored_rows_of_file
              (fun text => if (len text <? 20) then Some text else None)
              (fun _ => None) true "" (fun _ _ => true)
              "two.lua" Examples.two_bytes Examples.two_root
              Examples.two_chunks [] _ _
              ltac:(vm_compute; reflexivity) eq_refl)
    as (rows & _ & Hlen & Hall).
  exists rows. split; [exact Hlen|exact Hall].
Defined.

(** ** The files [main] processes *)

(** X13.  Without [--single-file], [main] processes a prefix of what [glob]
    finds: all of it for no limit and for limit 0, the first [n] files for
    a limit [n > 0], and all but the last [-n] files for a limit [n < 0]. *)
Theorem main_limit isfile lua_files limit :
  main_files true isfile lua_files None limit `prefix_of` lua_files
  /\ len (main_files true isfile lua_files None limit)
     = match limit with
       | None => len lua_files
       | Some n =>
         if n =? 0 then len lua_files
         else if 0 <? n then Z.min n (len lua_files)
         else Z.max 0 (len lua_files + n)
       end.
Proof.
  unfold main_files, slice_to, len. cbn [negb].
  destruct limit as [n|]; [|split; reflexivity].
  destruct (Z.eqb_spec n 0) as [->|Hn]; cbn [negb]; [split; reflexivity|].
  destruct (Z.leb_spec 0 n), (Z.ltb_spec 0 n); try lia;
    (split; [apply prefix_take|rewrite length_take; lia]).
Qed.

(** ** Properties of [batch_process.py] *)

Lemma append_cons c a b : String c a +:+ b = String c (a +:+ b).
Proof. reflexivity. Qed.

Lemma prefix_spec p : forall s,
  String.prefix p s = true <-> exists b, s = p +:+ b.
Proof.
  induction p as [|c p IH]; intros s.
  - destruct s; cbn; (split; [eauto|reflexivity]).
  - destruct s as [|d s]; cbn;
      [split; [discriminate|intros [b Hb]; discriminate Hb]|].
    destruct (Ascii.ascii_dec c d) as [->|Hcd].
    + rewrite IH. split; intros [b Hb]; exists b;
        rewrite append_cons in *; congruence.
    + split; [discriminate|]. intros [b Hb].
      rewrite append_cons in Hb. congruence.
Qed.

(** [contains] finds the pattern wherever it stands. *)
Lemma contains_spec p : forall s,
  contains p s = true <-> exists a b, s = a +:+ p +:+ b.
Proof.
  induction s as [|c s IH]; cbn [contains]; rewrite orb_true_iff.
  - rewrite prefix_spec. split.
    + intros [[b Hb]|]; [|discriminate]. exists ""%string, b. exact Hb.
    + intros ([|c a] & b & Hab); [|discriminate]. left. eauto.
  - rewrite prefix_spec, IH. split.
    + intros [[b Hb]|(a & b & ->)].
      * exists ""%string, b. exact Hb.
      * exists (String c a), b. reflexivity.
    + intros ([|d a] & b & Hab); [left; eauto|].
      right. rewrite append_cons in Hab. injection Hab as _ ->. eauto.
Qed.

Lemma not_excluded_membership lua_files (ps : list string) f :
  f ∈ List.filter
        (fun file_path =>
           negb (existsb (fun pattern => contains pattern file_path) ps))
        lua_files
  <-> f ∈ lua_files /\ forall p a b, p ∈ ps -> f <> a +:+ p +:+ b.
Proof.
  rewrite list_elem_of_In, filter_In, <- list_elem_of_In.
  rewrite negb_true_iff, <- not_true_iff_false, existsb_exists.
  split; intros [Hf Hno]; (split; [exact Hf|]).
  - intros p a b Hp ->. apply Hno. exists p.
    split; [apply list_elem_of_In, Hp|]. apply contains_spec. eauto.
  - intros (p & Hp%list_elem_of_In & (a & b & ->)%contains_spec).
    eapply Hno; [exact Hp|reflexivity].
Qed.

(** X14.  With patterns to exclude, [get_all_lua_files] keeps exactly the
    files in which no pattern occurs, anywhere in the path. *)
Theorem get_all_lua_files_membership lua_files patterns f :
  patterns <> [] ->
  f ∈ get_all_lua_files lua_files (Some patterns)
  <-> f ∈ lua_files
      /\ forall p a b, p ∈ patterns -> f <> a +:+ p +:+ b.
Proof.
  intros Hne. unfold get_all_lua_files.
  destruct patterns as [|p0 patterns]; [contradiction|].
  apply not_excluded_membership.
Qed.

Lemma get_all_lua_files_membership_witness :
  "Scripts/a.lua"%string
    ∈ get_all_lua_files ["Scripts/a.lua"; "Mods/XSAF.DB/b.lua"]%string
        (Some ["XSAF.DB"%string])
  /\ "Mods/XSAF.DB/b.lua"%string
       ∉ get_all_lua_files ["Scripts/a.lua"; "Mods/XSAF.DB/b.lua"]%string
           (Some ["XSAF.DB"%string]).
Proof.
  split.
  - apply list_elem_of_here.
  - intros [_ Hno]%get_all_lua_files_membership; [|discriminate].
    apply (Hno "XSAF.DB" "Mods/" "/b.lua")%string;
      [apply list_elem_of_here|reflexivity].
Defined.

(** X15.  An empty pattern among the exclusions occurs in every path: no
    file is left. *)
Theorem get_all_lua_files_empty_pattern lua_files patterns :
  ""%string ∈ patterns ->
  get_all_lua_files lua_files (Some patterns) = [].
Proof.
  intros Hp. unfold get_all_lua_files.
  destruct patterns as [|p0 patterns]; [inversion Hp|].
  induction lua_files as [|f lua_files IH]; [reflexivity|].
  cbn [List.filter].
  replace (existsb (fun pattern => contains pattern f) (p0 :: patterns))
    with true; [exact IH|].
  symmetry. apply existsb_exists. exists ""%string.
  split; [apply list_elem_of_In, Hp|].
  apply contains_spec. exists ""%string, f. reflexivity.
Qed.

Lemma get_all_lua_files_empty_pattern_witness :
  get_all_lua_files ["a.lua"; "b.lua"]%string
    (Some ["XSAF.DB"; ""]%string) = [].
Proof.
  apply get_all_lua_files_empty_pattern.
  apply list_elem_of_further, list_elem_of_here.
Defined.

(** The files are kept in the order in which [glob] gave them. *)
Lemma get_all_lua_files_sublist lua_files exclude :
  get_all_lua_files lua_files exclude `sublist_of` lua_files.
Proof.
  unfold get_all_lua_files. destruct exclude as [[|p patterns]|];
    [reflexivity| |reflexivity].
  induction lua_files as [|f lua_files IH]; cbn [List.filter];
    [reflexivity|].
  destruct (negb _); [apply sublist_skip, IH|apply sublist_cons, IH].
Qed.

Lemma batches_concat {A} (l : list A) (b : nat) : forall k,
  concat ((fun j => take b (drop (j * b) l)) <$> seq 0 k)
  = take (k * b) l.
Proof.
  induction k as [|k IH]; [reflexivity|].
  rewrite seq_S, fmap_app, concat_app, IH. cbn [fmap list_fmap concat plus].
  rewrite app_nil_r, take_take_drop. f_equal. lia.
Qed.

(** The slices [process_batch] takes, with offsets in [nat]. *)
Lemma process_batch_slices files batch_size :
  0 < batch_size ->
  process_batch files batch_size =
    Batches ((fun j => take (Z.to_nat batch_size)
                         (drop (j * Z.to_nat batch_size) files))
             <$> seq 0 (Z.to_nat ((len files + batch_size - 1) / batch_size))).
Proof.
  intros Hb. unfold process_batch, range0.
  destruct (Z.eqb_spec batch_size 0); [lia|].
  destruct (Z.ltb_spec 0 batch_size); [|lia].
  f_equal. rewrite <- list_fmap_compose. apply Forall_fmap_ext, Forall_forall.
  intros j _. unfold list_slice. cbn [compose]. f_equal; [lia|f_equal; lia].
Qed.

Lemma ceil_div_bounds n b :
  0 <= n -> 0 < b ->
  n <= (n + b - 1) / b * b /\ ((n + b - 1) / b - 1) * b < n
  /\ 0 <= (n + b - 1) / b.
Proof.
  intros Hn Hb.
  pose proof (Z.div_mod (n + b - 1) b ltac:(lia)) as Hdm.
  pose proof (Z.mod_pos_bound (n + b - 1) b Hb) as Hr.
  assert (0 <= (n + b - 1) / b) by (apply Z.div_pos; lia).
  nia.
Qed.

(** X16.  For a positive batch size the batches are the files, each once
    and in order, cut into pieces that are not empty and hold at most
    [batch_size] files; there are [ceil(len(files) / batch_size)] of them. *)
Theorem process_batch_partition files batch_size :
  0 < batch_size ->
  exists batches,
    process_batch files batch_size = Batches batches
    /\ concat batches = files
    /\ Forall (fun batch => batch <> [] /\ len batch <= batch_size) batches
    /\ len batches = (len files + batch_size - 1) / batch_size.
Proof.
  intros Hb. eexists. split; [apply process_batch_slices, Hb|].
  destruct (ceil_div_bounds (len files) batch_size) as (Hup & Hlow & Hk);
    [unfold len; lia|exact Hb|].
  split; [|split].
  - rewrite batches_concat. apply take_ge. unfold len in *. nia.
  - apply Forall_fmap, Forall_forall.
    intros j Hj%list_elem_of_In%in_seq. cbn [compose].
    assert (Hlen : length (take (Z.to_nat batch_size)
                             (drop (j * Z.to_nat batch_size) files))
                   = Nat.min (Z.to_nat batch_size)
                       (length files - j * Z.to_nat batch_size)).
    { rewrite length_take, length_drop. reflexivity. }
    assert (Hjn : (j * Z.to_nat batch_size < length files)%nat).
    { unfold len in *. nia. }
    split; [|unfold len; rewrite Hlen; lia].
    intros Hnil. rewrite Hnil in Hlen. cbn [length] in Hlen. lia.
  - unfold len. rewrite length_fmap, length_seq. unfold len in Hk. lia.
Qed.

Lemma process_batch_partition_witness :
  process_batch ["a.lua"; "b.lua"; "c.lua"; "d.lua"; "e.lua"]%string 2
  = Batches [["a.lua"; "b.lua"]; ["c.lua"; "d.lua"]; ["e.lua"]]%string.
Proof.
  destruct (process_batch_partition
              ["a.lua"; "b.lua"; "c.lua"; "d.lua"; "e.lua"]%string 2)
    as (batches & Hrun & _); [lia|].
  rewrite Hrun. vm_compute in Hrun. injection Hrun as <-. reflexivity.
Defined.

(** X17.  The total announced to the progress bar,
    [len(files)//batch_size + 1], is the number of batches when the batch
    size does not divide the number of files, and one more when it does. *)
Theorem process_batch_progress_total files batch_size batches :
  0 < batch_size ->
  process_batch files batch_size = Batches batches ->
  len files / batch_size + 1
  = len batches + (if len files mod batch_size =? 0 then 1 else 0).
Proof.
  intros Hb Hrun.
  destruct (process_batch_partition files batch_size Hb)
    as (batches' & Hrun' & _ & _ & Hcount).
  rewrite Hrun in Hrun'. injection Hrun' as <-. rewrite Hcount.
  pose proof (Z.div_mod (len files) batch_size ltac:(lia)) as Hdm.
  pose proof (Z.mod_pos_bound (len files) batch_size Hb) as Hr.
  destruct (Z.eqb_spec (len files mod batch_size) 0) as [H0|H0].
  - assert ((len files + batch_size - 1) / batch_size
            = len files / batch_size); [|lia].
    symmetry. apply (Z.div_unique _ _ _ (batch_size - 1)); lia.
  - assert ((len files + batch_size - 1) / batch_size
            = len files / batch_size + 1); [|lia].
    symmetry.
    apply (Z.div_unique _ _ _ (len files mod batch_size - 1)); lia.
Qed.

Lemma process_batch_progress_total_witness :
  len ["a.lua"; "b.lua"; "c.lua"; "d.lua"]%string / 2 + 1
  = len [["a.lua"; "b.lua"]; ["c.lua"; "d.lua"]]%string + 1.
Proof.
  apply (process_batch_progress_total
           ["a.lua"; "b.lua"; "c.lua"; "d.lua"]%string 2
           [["a.lua"; "b.lua"]; ["c.lua"; "d.lua"]]%string);
    [lia|reflexivity].
Defined.

Lemma index_spec l x :
  match index l x with
  | Some i => exists skipped rest,
      l = skipped ++ x :: rest /\ length skipped = i /\ (x ∉ skipped)
  | None => x ∉ l
  end.
Proof.
  induction l as [|y l IH]; cbn [index]; [apply not_elem_of_nil|].
  destruct (String.eqb_spec y x) as [->|Hyx].
  - exists [], l. repeat split. apply not_elem_of_nil.
  - destruct (index l x) as [i|]; cbn.
    + destruct IH as (skipped & rest & -> & <- & Hx).
      exists (y :: skipped), rest. repeat split.
      intros [?|?]%elem_of_cons; [congruence|contradiction].
    + intros [?|?]%elem_of_cons; [congruence|contradiction].
Qed.

(** X18.  [--continue-from] with a file of the list drops the files before
    its first occurrence and starts with it; with a file that is not in the
    list it changes nothing, and all files are processed again. *)
Theorem continue_from_spec all_files f :
  f <> ""%string ->
  (f ∈ all_files ->
   exists skipped rest,
     all_files = skipped ++ f :: rest
     /\ (f ∉ skipped)
     /\ continue_from all_files (Some f) = f :: rest)
  /\ (f ∉ all_files -> continue_from all_files (Some f) = all_files).
Proof.
  intros Hf%String.eqb_neq. unfold continue_from. rewrite Hf. cbn [negb].
  pose proof (index_spec all_files f) as Hidx.
  destruct (index all_files f) as [i|].
  - destruct Hidx as (skipped & rest & -> & <- & Hx).
    split; [|intros []; set_solver].
    intros _. exists skipped, rest. repeat split; [exact Hx|].
    rewrite drop_app_length. reflexivity.
  - split; [contradiction|reflexivity].
Qed.

Lemma continue_from_spec_witness :
  continue_from ["a.lua"; "b.lua"; "c.lua"; "b.lua"]%string (Some "b.lua"%string)
  = ["b.lua"; "c.lua"; "b.lua"]%string
  /\ continue_from ["a.lua"; "b.lua"]%string (Some "z.lua"%string)
     = ["a.lua"; "b.lua"]%string.
Proof.
  split.
  - destruct (proj1 (continue_from_spec
                       ["a.lua"; "b.lua"; "c.lua"; "b.lua"]%string
                       "b.lua" ltac:(discriminate)))
      as (skipped & rest & _ & _ & Hrun);
      [apply list_elem_of_further, list_elem_of_here|].
    reflexivity.
  - apply (proj2 (continue_from_spec ["a.lua"; "b.lua"]%string
                    "z.lua" ltac:(discriminate))).
    intros H. apply list_elem_of_In in H. cbn in H.
    destruct H as [H|[H|[]]]; discriminate H.
Defined.

Lemma suffix_is_sublist {A} (l1 l2 : list A) :
  l1 `suffix_of` l2 -> l1 `sublist_of` l2.
Proof. intros [k ->]. apply sublist_inserts_l. reflexivity. Qed.

Lemma continue_from_suffix all_files arg :
  continue_from all_files arg `suffix_of` all_files.
Proof.
  unfold continue_from. destruct arg as [f|]; [|reflexivity].
  destruct (negb _); [|reflexivity].
  destruct (index all_files f); [apply suffix_drop|reflexivity].
Qed.

(** X19.  Whatever the arguments, with a positive batch size the files
    [main] of [batch_process.py] hands to the embedder are files that
    [glob] found, in their order and each at most as often as [glob] gave
    it; with patterns to exclude, none of them holds a pattern. *)
Theorem batch_main_files lua_files exclude continue_arg batch_size :
  0 < batch_size ->
  exists batches,
    batch_main lua_files exclude continue_arg batch_size = Batches batches
    /\ concat batches `sublist_of` lua_files
    /\ (forall patterns, exclude = Some patterns -> patterns <> [] ->
        forall f p a b, f ∈ concat batches -> p ∈ patterns ->
                        f <> a +:+ p +:+ b).
Proof.
  intros Hb. unfold batch_main.
  destruct (process_batch_partition
              (continue_from (get_all_lua_files lua_files exclude)
                 continue_arg) batch_size Hb)
    as (batches & Hrun & Hcat & _).
  exists batches. split; [exact Hrun|]. rewrite Hcat.
  pose proof (continue_from_suffix (get_all_lua_files lua_files exclude)
                continue_arg) as Hsuf.
  split.
  - etransitivity; [apply suffix_is_sublist, Hsuf|].
    apply get_all_lua_files_sublist.
  - intros patterns -> Hne f p a b Hf Hp.
    destruct Hsuf as [k Hk]. 
    assert (Hin : f ∈ get_all_lua_files lua_files (Some patterns))
      by (rewrite Hk; apply elem_of_app; right; exact Hf).
    unfold get_all_lua_files in Hin.
    destruct patterns as [|p0 patterns]; [contradiction|].
    apply not_excluded_membership in Hin as [_ Hno]. apply Hno, Hp.
Qed.

Lemma batch_main_files_witness :
  batch_main ["Scripts/a.lua"; "Mods/XSAF.DB/b.lua"; "Scripts/c.lua"]%string
    (Some ["XSAF.DB"%string]) None 5
  = Batches [["Scripts/a.lua"; "Scripts/c.lua"]]%string.
Proof.
  destruct (batch_main_files
              ["Scripts/a.lua"; "Mods/XSAF.DB/b.lua"; "Scripts/c.lua"]%string
              (Some ["XSAF.DB"%string]) None 5)
    as (batches & Hrun & _); [lia|].
  rewrite Hrun. vm_compute in Hrun. injection Hrun as <-. reflexivity.
Defined.

(** ** Edge behaviour of [process_node] *)

(** X20.  A span that starts at or past the end of the buffer, or that ends
    where it starts or before, is an empty slice, not an error: the text is
    empty and the node makes no chunk. *)
Theorem empty_span_is_skipped path bs n parent chunks :
  (length bs <= start_byte n \/ end_byte n <= start_byte n)%nat ->
  extract_node_text n bs = Ok []
  /\ process_node path bs n parent chunks = Ok (chunks, None).
Proof.
  intros Hspan.
  assert (Htext : extract_node_text n bs = Ok []).
  { unfold extract_node_text, slice. destruct Hspan as [H|H].
    - rewrite drop_ge by exact H. rewrite take_nil. reflexivity.
    - replace (end_byte n - start_byte n)%nat with 0%nat by lia.
      reflexivity. }
  split; [exact Htext|].
  destruct (is_interesting n) eqn:Hi.
  - apply (process_node_small _ _ _ _ _ []); [exact Hi|exact Htext|].
    reflexivity.
  - apply process_node_uninteresting, Hi.
Qed.

Lemma empty_span_is_skipped_witness :
  process_node "small.lua" Examples.small_bytes
    (Node "comment" 7 9 (0%nat, 7%nat) (0%nat, 9%nat) []) None []
  = Ok ([], None).
Proof.
  apply (empty_span_is_skipped "small.lua" Examples.small_bytes
           (Node "comment" 7 9 (0%nat, 7%nat) (0%nat, 9%nat) []) None []).
  left. cbn. lia.
Defined.

(** X21.  [process_node] never touches the chunks that are there: either it
    returns [None] and leaves the list as it is, or it appends one chunk
    and returns its id, the new length of the list; the chunk has the
    parent id that was passed. *)
Theorem process_node_appends path bs n parent chunks chunks' r :
  process_node path bs n parent chunks = Ok (chunks', r) ->
  (r = None /\ chunks' = chunks)
  \/ (exists c, chunks' = chunks ++ [c]
        /\ r = Some (id c)
        /\ id c = len chunks'
        /\ parent_id c = parent
        /\ chunk_type c = type n).
Proof.
  intros [[_ [= -> ->]]|[_ (c & [= -> ->] & Hc & Hid & Hp)]]%process_node_spec.
  - left. split; reflexivity.
  - right. exists c. repeat split; try assumption.
    + rewrite Hid. unfold len. rewrite length_app. cbn. lia.
    + exact (derived_type _ _ _ _ Hc).
Qed.

Lemma process_node_appends_witness :
  exists c,
    process_node "two.lua" Examples.two_bytes
      (Node "do_statement" 28 44 (4%nat, 0%nat) (4%nat, 16%nat) [])
      (Some 1) (take 1 Examples.two_chunks)
    = Ok (take 1 Examples.two_chunks ++ [c], Some 2)
    /\ parent_id c = Some 1.
Proof.
  destruct (process_node_appends "two.lua" Examples.two_bytes
              (Node "do_statement" 28 44 (4%nat, 0%nat) (4%nat, 16%nat) [])
              (Some 1) (take 1 Examples.two_chunks)
              (take 1 Examples.two_chunks
               ++ [Chunk 2 "two.lua" "do_statement"
                     (byte_val <$> slice Examples.two_bytes 28 44)
                     {[ "node_type"%string := MTag "do_statement" ]}
                     5 5 (Some 1)])
              (Some 2))
    as [[Hr _]|(c & Hc & _ & _ & Hp & _)].
  - vm_compute. reflexivity.
  - discriminate Hr.
  - exists c. split; [|exact Hp].
    apply app_inj_tail in Hc as [_ <-]. vm_compute. reflexivity.
Defined.
